(** * UV curing power calculator (dschrander/uv-energy-saver)

    A shallow embedding of [flexo_uv_curing.py] and [utils.py], with the
    form of [app.py] and the part that saves a setting.  Python floats are binary64
    values: Rocq's primitive [float], whose operations are specified by
    [SpecFloat] through [FloatAxioms].  Dictionaries are [gmap]s, and the
    code that may raise runs in an error monad.  The text of the
    settings file is written and read by a model of the [json] module. *)

From Stdlib Require Import ZArith QArith List String Ascii Floats Bool Lia Sorted.
From Stdlib Require Import Reals Lra.
From Stdlib Require Import DecimalString.
From stdpp Require Import base option strings gmap list.

Set Warnings "-inexact-float".
Local Open Scope string_scope.
Local Open Scope Z_scope.

(** ** The Python runtime, as far as the program uses it *)

Module Py.

(** The exceptions the modelled operations can raise. *)
Inductive exn : Set :=
| KeyError | IndexError | ValueError | AttributeError | TypeError.

Inductive result (A : Type) : Type :=
| Ok (a : A)
| Raise (e : exn).
Arguments Ok {A} a.
Arguments Raise {A} e.

#[export] Instance result_ret : MRet result := fun _ a => Ok a.
#[export] Instance result_bind : MBind result := fun _ _ f m =>
  match m with Ok a => f a | Raise e => Raise e end.

(** Python numbers: [int] is unbounded, [float] is binary64. *)
Inductive num : Set :=
| NInt (z : Z)
| NFloat (f : float).

Inductive value : Set :=
| VStr (s : string)
| VNum (n : num).

Definition VFloat (f : float) : value := VNum (NFloat f).

(** *** Ordering of numbers

    Python compares an [int] with a [float] exactly, without converting
    the [int]: a finite float is [±m * 2^e], and the comparison is made
    on integers. *)
Definition float_cmp_int (f : float) (z : Z) : option comparison :=
  match Prim2SF f with
  | S754_nan => None
  | S754_infinity s => Some (if s then Lt else Gt)
  | S754_zero _ => Some (0 ?= z)
  | S754_finite s m e =>
      let v := if s then Zneg m else Zpos m in
      Some (if 0 <=? e then v * 2 ^ e ?= z else v ?= z * 2 ^ (- e))
  end.

Definition float_cmp (f g : float) : option comparison :=
  match (f ?= g)%float with
  | FEq => Some Eq | FLt => Some Lt | FGt => Some Gt
  | FNotComparable => None
  end.

Definition num_cmp (a b : num) : option comparison :=
  match a, b with
  | NInt x, NInt y => Some (x ?= y)
  | NFloat f, NInt y => float_cmp_int f y
  | NInt x, NFloat g => option_map CompOpp (float_cmp_int g x)
  | NFloat f, NFloat g => float_cmp f g
  end.

(** [a < b], [a <= b], [a > b] and [a == b]; a comparison with NaN is
    false. *)
Definition lt (a b : num) : bool :=
  match num_cmp a b with Some Lt => true | _ => false end.
Definition le (a b : num) : bool :=
  match num_cmp a b with Some (Lt | Eq) => true | _ => false end.
Definition gt (a b : num) : bool := lt b a.
Definition num_eq (a b : num) : bool :=
  match num_cmp a b with Some Eq => true | _ => false end.

Definition eq (a b : value) : bool :=
  match a, b with
  | VStr s, VStr t => bool_decide (s = t)
  | VNum x, VNum y => num_eq x y
  | _, _ => false
  end.

(** [min(a, b)] and [max(a, b)]: the first argument is kept unless the
    second is strictly smaller (larger). *)
Definition min (a b : num) : num := if lt b a then b else a.
Definition max (a b : num) : num := if gt b a then b else a.

(** [sum(xs)] over floats starts from the [int] 0 and adds from the
    left. *)
Definition sum (xs : list float) : float :=
  fold_left PrimFloat.add xs 0%float.

(** From version 3.12 on CPython adds floats with Neumaier's
    compensation: [c] collects the rounding errors and is added at the
    end, when it is neither zero nor infinite. [sum_range_compensated]
    below shows that the two sums agree on the transfer ranges. *)
Fixpoint sum_compensated_from (xs : list float) (f_result c : float) : float :=
  match xs with
  | [] => if negb (c =? 0)%float && is_finite c then (f_result + c)%float else f_result
  | x :: xs' =>
      let t := (f_result + x)%float in
      let c :=
        if (abs x <=? abs f_result)%float then (c + ((f_result - t) + x))%float
        else (c + ((x - t) + f_result))%float in
      sum_compensated_from xs' t c
  end.

Definition sum_compensated (xs : list float) : float :=
  match xs with
  | [] => 0%float
  | x :: xs' => sum_compensated_from xs' (0 + x)%float 0%float
  end.

(** The float nearest to an [int] (ties to even), as the arithmetic
    converts it. *)
Definition float_of_int (z : Z) : float :=
  SF2Prim (binary_normalize prec emax z 0 false).

(** *** Decimal conversions

    [strtod] is the correctly rounded conversion of the decimal
    [digits * 10^exp10] to binary64 (round to nearest, ties to even),
    through the division of [SpecFloat]. *)
Definition float_of_ratio (s : bool) (n d : positive) : float :=
  SF2Prim
    (let '(mz, ez, lz) := SFdiv_core_binary prec emax (Zpos n) 0 (Zpos d) 0 in
     binary_round_aux prec emax s mz ez lz).

Definition strtod (s : bool) (digits : N) (exp10 : Z) : float :=
  match digits with
  | N0 => SF2Prim (S754_zero s)
  | Npos p =>
      if 0 <=? exp10 then float_of_ratio s (p * Z.to_pos (10 ^ exp10)) 1
      else float_of_ratio s p (Z.to_pos (10 ^ (- exp10)))
  end.

(** The integer nearest to [n / d] for [d > 0], ties to even. *)
Definition round_half_even (n d : Z) : Z :=
  let q := n / d in
  match 2 * (n mod d) ?= d with
  | Lt => q
  | Gt => q + 1
  | Eq => if Z.even q then q else q + 1
  end.

(** The number of tenths nearest to [m * 2^e]. *)
Definition tenths (m : positive) (e : Z) : Z :=
  if 0 <=? e then 10 * Zpos m * 2 ^ e
  else round_half_even (10 * Zpos m) (2 ^ (- e)).

(** [round(x, 1)] on a float: the exact value of [x] is rounded to one
    decimal (ties to even) and that decimal is converted back. NaN and
    the infinities are returned as they are. *)
Definition round1_float (x : float) : float :=
  match Prim2SF x with
  | S754_finite s m e => strtod s (Z.to_N (tenths m e)) (-1)
  | _ => x
  end.

(** [round(x, 1)]; an [int] is returned unchanged. *)
Definition round1 (x : num) : num :=
  match x with
  | NInt z => NInt z
  | NFloat f => NFloat (round1_float f)
  end.

(** *** Strings *)

Definition is_space (c : ascii) : bool :=
  let n := nat_of_ascii c in
  ((9 <=? n)%nat && (n <=? 13)%nat) || ((28 <=? n)%nat && (n <=? 32)%nat).

(** [s.split()]: the maximal runs of characters that are not white
    space. White space is the ASCII one; the tables hold no other. *)
Fixpoint split_go (s : string) (cur : option string) : list string :=
  match s with
  | EmptyString => match cur with Some w => [w] | None => [] end
  | String c s' =>
      if is_space c then
        match cur with
        | Some w => w :: split_go s' None
        | None => split_go s' None
        end
      else
        split_go s' (Some (match cur with
                           | Some w => w ++ String c EmptyString
                           | None => String c EmptyString
                           end))
  end.

Definition split (v : value) : result (list string) :=
  match v with
  | VStr s => Ok (split_go s None)
  | VNum _ => Raise AttributeError
  end.

(** [xs[i]] on a list. *)
Definition index {A} (xs : list A) (i : nat) : result A :=
  match xs !! i with
  | Some x => Ok x
  | None => Raise IndexError
  end.

Definition digit_of (c : ascii) : option N :=
  let n := N_of_ascii c in
  if ((48 <=? n) && (n <=? 57))%N then Some (n - 48)%N else None.

(** Reads digits: the number read so far, how many digits were read, and
    the rest of the string. *)
Fixpoint read_digits (s : string) (acc : N) (count : nat) : N * nat * string :=
  match s with
  | EmptyString => (acc, count, s)
  | String c s' =>
      match digit_of c with
      | Some d => read_digits s' (10 * acc + d)%N (S count)
      | None => (acc, count, s)
      end
  end.

(** [float(s)] for the plain decimal forms [[+-]digits[.digits]] (at
    least one digit). The other forms Python accepts (exponents,
    [inf], [nan], underscores, surrounding white space) are not needed
    by the tables and are rejected here. *)
Definition float_of_string (s : string) : result float :=
  let '(neg, body) :=
    match s with
    | String "-" s' => (true, s')
    | String "+" s' => (false, s')
    | _ => (false, s)
    end in
  let '(ip, ni, rest) := read_digits body 0%N 0%nat in
  match rest with
  | EmptyString =>
      if (ni =? 0)%nat then Raise ValueError else Ok (strtod neg ip 0)
  | String "." frac =>
      let '(all, nf, rest') := read_digits frac ip 0%nat in
      match rest' with
      | EmptyString =>
          if (ni + nf =? 0)%nat then Raise ValueError
          else Ok (strtod neg all (- Z.of_nat nf))
      | _ => Raise ValueError
      end
  | _ => Raise ValueError
  end.

(** *** Dictionaries *)

(** [d[k]]. *)
Definition getitem {V} (d : gmap string V) (k : string) : result V :=
  match d !! k with
  | Some v => Ok v
  | None => Raise KeyError
  end.

(** [d.get(k, dflt)]. *)
Definition get {V} (d : gmap string V) (k : string) (dflt : V) : V :=
  default dflt (d !! k).

(** A dictionary is true when it is not empty. *)
Definition truthy {V} (d : gmap string V) : bool :=
  negb (bool_decide (map_to_list d = [])).

(** [for x in xs: if cond(x): return body(x)], followed by
    [return dflt]. *)
Fixpoint for_return {A B} (cond : A -> result bool) (body : A -> result B)
    (dflt : B) (xs : list A) : result B :=
  match xs with
  | [] => Ok dflt
  | x :: xs' =>
      c ← cond x;
      if c : bool then body x else for_return cond body dflt xs'
  end.

(** [next((x for x in xs if cond(x)), None)]. *)
Fixpoint next_or_none {A} (cond : A -> result bool) (xs : list A)
    : result (option A) :=
  match xs with
  | [] => Ok None
  | x :: xs' =>
      c ← cond x;
      if c : bool then Ok (Some x) else next_or_none cond xs'
  end.

End Py.

Import Py.

(** ** The operations of pandas that the program uses

    A column of floats is a list; a position is an integer, a negative
    one counting from the end. *)

Module Pandas.

(** [xs.iloc[i]]. *)
Definition iloc {A} (xs : list A) (i : Z) : result A :=
  let n := Z.of_nat (length xs) in
  let k := if i <? 0 then i + n else i in
  if (0 <=? k) && (k <? n) then Py.index xs (Z.to_nat k) else Raise IndexError.

(** [xs.iloc[positions]] with a list of positions. *)
Fixpoint iloc_list {A} (xs : list A) (positions : list Z) : result (list A) :=
  match positions with
  | [] => Ok []
  | i :: rest =>
      x ← iloc xs i;
      picked ← iloc_list xs rest;
      mret (x :: picked)
  end.

(** Insertion into a list of [(position, value)] sorted by value, after
    the values that are not above the new one. *)
Fixpoint insert_sorted (kx : nat * float) (l : list (nat * float)) : list (nat * float) :=
  match l with
  | [] => [kx]
  | ky :: l' =>
      if (snd kx <? snd ky)%float then kx :: l else ky :: insert_sorted kx l'
  end.

(** The positions of the values in increasing order of the values. Equal
    values keep their order, as in the insertion sort that orders short
    arrays; a build that sorts with vector instructions may order equal
    values otherwise. *)
Definition stable_argsort (xs : list float) : list nat :=
  List.map fst (fold_left (fun sorted kx => insert_sorted kx sorted)
                  (imap (fun i x => (i, x)) xs) []).

(** Where [xs] holds a NaN the position is -1, elsewhere the next
    position of [order]. *)
Fixpoint fill_positions (xs : list float) (order : list nat) : list Z :=
  match xs with
  | [] => []
  | x :: xs' =>
      if is_nan x then (-1) :: fill_positions xs' order
      else match order with
           | o :: order' => Z.of_nat o :: fill_positions xs' order'
           | [] => []
           end
  end.

(** [xs.argsort()] on a Series: when a value is NaN, the values that are
    not are sorted among themselves and the NaN get the position -1
    (pandas before 3.0). *)
Definition argsort (xs : list float) : list Z :=
  if existsb is_nan xs
  then fill_positions xs (stable_argsort (List.filter (fun x => negb (is_nan x)) xs))
  else List.map Z.of_nat (stable_argsort xs).

End Pandas.

(** ** The [json] module, as far as the program uses it

    The values are the Python objects that [json.load] returns. A [str]
    is kept as its UTF-8 text, as everywhere in this file, and a [dict]
    as the list of its items in the order of insertion. The text of a
    file is taken to be valid UTF-8. *)

Module Json.

Set Warnings "-register-all".
Inductive value : Type :=
| JNull
| JBool (b : bool)
| JInt (z : Z)
| JFloat (f : float)
| JStr (s : string)
| JList (l : list value)
| JDict (items : list (string * value)).


(** *** Writing *)






Definition digits (n : N) : string := NilZero.string_of_uint (N.to_uint n).











(** *** Reading *)















(** *** The settings file *)





End Json.

(** ** flexo_uv_curing.py *)

Module FlexoUVCuring.

(** The placeholder frame of [load_anilox_data]: rows of
    [(bcm, recommended_power)]. *)
Definition anilox_frame : Type := list (float * Z).

(** A volume specification is a dictionary with the keys [volume],
    [bcm], [lines], [transfer] and, for the GTT sizes, [actual_volume]. *)
Abbreviation spec := (gmap string value).

Record t : Type := {
  anilox_data : option anilox_frame;
  transfer_ranges : gmap string (float * float);
  volume_specs : gmap string (list spec)
}.

Definition dict {V} (items : list (string * V)) : gmap string V :=
  list_to_map items.

Definition volume_spec (volume : string) (bcm : float) (lines transfer : string)
    : spec :=
  dict [("volume", VStr volume); ("bcm", VFloat bcm);
        ("lines", VStr lines); ("transfer", VStr transfer)].

Definition gtt_spec (volume : string) (bcm : float) (lines transfer actual : string)
    : spec :=
  dict [("volume", VStr volume); ("bcm", VFloat bcm);
        ("lines", VStr lines); ("transfer", VStr transfer);
        ("actual_volume", VStr actual)].

Definition hexagonal : string := "Hexagonal (20-30% transfer)".
Definition hachure : string := "Hachure / Trihelical (35-40% transfer)".
Definition art_tif : string := "ART / TIF (40-50% transfer)".
Definition gtt : string := "GTT UniCoat (25-30% transfer)".

(** [load_anilox_data]: the frame is built from constants; [built] is
    false when building it raises, and then [None] is returned. *)
Definition load_anilox_data (built : bool) : option anilox_frame :=
  if built
  then Some [(1.5%float, 40); (2.0%float, 50); (2.5%float, 60); (3.0%float, 70)]
  else None.

(** [__init__]. *)
Definition init (built : bool) : t := {|
  anilox_data := load_anilox_data built;
  transfer_ranges := dict [
    (hexagonal, (0.20, 0.30)%float);
    (hachure, (0.35, 0.40)%float);
    (art_tif, (0.40, 0.50)%float);
    (gtt, (0.25, 0.30)%float)];
  volume_specs := dict [
    (hexagonal, [
       volume_spec "7 cm³/m²" 4.5 "160 L/cm" "1.8 g/m²";
       volume_spec "10 cm³/m²" 6.4 "120 L/cm" "2.5 g/m²";
       volume_spec "13 cm³/m²" 8.4 "100 L/cm" "3.25 g/m²";
       volume_spec "16 cm³/m²" 10.3 "80 L/cm" "4.0 g/m²";
       volume_spec "20 cm³/m²" 12.9 "60 L/cm" "5.0 g/m²"]);
    (hachure, [
       volume_spec "7 cm³/m²" 4.5 "160 L/cm" "2.3 g/m²";
       volume_spec "10 cm³/m²" 6.4 "120 L/cm" "3.3 g/m²";
       volume_spec "13 cm³/m²" 8.4 "100 L/cm" "4.3 g/m²";
       volume_spec "16 cm³/m²" 10.3 "80 L/cm" "5.3 g/m²";
       volume_spec "20 cm³/m²" 12.9 "60 L/cm" "6.5 g/m²"]);
    (art_tif, [
       volume_spec "7 cm³/m²" 4.5 "160 L/cm" "2.7 g/m²";
       volume_spec "10 cm³/m²" 6.4 "120 L/cm" "3.7 g/m²";
       volume_spec "13 cm³/m²" 8.4 "100 L/cm" "5.0 g/m²";
       volume_spec "16 cm³/m²" 10.3 "80 L/cm" "6.0 g/m²";
       volume_spec "20 cm³/m²" 12.9 "60 L/cm" "7.5 g/m²"]);
    (gtt, [
       gtt_spec "S" 4.5 "GTT" "1.8 g/m²" "7 cm³/m²";
       gtt_spec "M" 6.4 "GTT" "2.5 g/m²" "10 cm³/m²";
       gtt_spec "L" 8.4 "GTT" "3.25 g/m²" "13 cm³/m²";
       gtt_spec "XL" 10.3 "GTT" "4.0 g/m²" "16 cm³/m²";
       gtt_spec "XXL" 12.9 "GTT" "5.0 g/m²" "20 cm³/m²"])]
|}.

Section Methods.
Variable self : t.

(** [spec['volume'] == selected_volume]. *)
Definition volume_is (selected_volume : string) (sp : spec) : result bool :=
  v ← getitem sp "volume";
  mret (Py.eq v (VStr selected_volume)).

Definition get_volume_specs (rasterwals_type : string) : list spec :=
  get (volume_specs self) rasterwals_type [].

Definition get_bcm_from_volume (rasterwals_type selected_volume : string)
    : result value :=
  let specs := get (volume_specs self) rasterwals_type [] in
  for_return (volume_is selected_volume) (fun sp => getitem sp "bcm")
    (VFloat 0.0) specs.

Definition get_transfer_from_volume (rasterwals_type selected_volume : string)
    : result value :=
  let specs := get (volume_specs self) rasterwals_type [] in
  for_return (volume_is selected_volume) (fun sp => getitem sp "transfer")
    (VStr "0.0 g/m²") specs.

Definition calculate_transfer_factor (rasterwals_type selected_volume : string)
    : result float :=
  let transfer_range :=
    get (transfer_ranges self) rasterwals_type (0.25, 0.30)%float in
  let transfer_avg :=
    (Py.sum [fst transfer_range; snd transfer_range] / 2)%float in
  let specs := get (volume_specs self) rasterwals_type [] in
  selected_spec ← next_or_none (volume_is selected_volume) specs;
  match selected_spec with
  | Some sp =>
      if truthy sp then
        tr ← getitem sp "transfer";
        tokens ← split tr;
        token ← index tokens 0;
        transfer_value ← float_of_string token;
        mret (transfer_avg * (transfer_value / 3.0))%float
      else mret transfer_avg
  | None => mret transfer_avg
  end.

(** The dictionary [bereken_uv_vermogen] returns. *)
Record explanation : Type := {
  base_power : Z;
  substrate_contribution : float;
  ink_contribution : float;
  bcm_contribution : float;
  transfer_factor : float;
  transfer_value : value;
  final_power : num
}.

Definition power_factors : gmap string (gmap string float) :=
  dict [
    ("substraat", dict [
       ("Gecoat papier", 1.0%float);
       ("Ongecoat papier", 1.2%float);
       ("Folie", 1.3%float);
       ("Karton", 1.1%float)]);
    ("inktsoort", dict [
       ("UV-inkt", 1.0%float);
       ("Watergedragen inkt", 1.2%float);
       ("LED-UV inkt", 0.9%float)])].

(** Lines 120 and 121: the power before it is limited. The [int]s
    [base_power] and [1] are converted to floats by the mixed
    arithmetic. *)
Definition uv_vermogen_raw (substrate_factor ink_factor bcm_factor tf : float)
    : float :=
  let uv_vermogen := (40 * substrate_factor * ink_factor * (1 + bcm_factor))%float in
  (uv_vermogen * (1 + tf))%float.

(** Line 122: [max(20, min(uv_vermogen, 100))]. *)
Definition limit (uv_vermogen : float) : num :=
  Py.max (NInt 20) (Py.min (NFloat uv_vermogen) (NInt 100)).

Definition bereken_uv_vermogen (substraat inktsoort : string) (bcm : float)
    (rasterwals_type selected_volume : string) : result explanation :=
  let base_power := 40 in
  substrate_factors ← getitem power_factors "substraat";
  let substrate_factor := get substrate_factors substraat 1.0%float in
  ink_factors ← getitem power_factors "inktsoort";
  let ink_factor := get ink_factors inktsoort 1.0%float in
  tf ← calculate_transfer_factor rasterwals_type selected_volume;
  let bcm_factor := (bcm * 0.1)%float in
  let uv_vermogen := uv_vermogen_raw substrate_factor ink_factor bcm_factor tf in
  let uv_vermogen := limit uv_vermogen in
  tv ← get_transfer_from_volume rasterwals_type selected_volume;
  mret {|
    base_power := base_power;
    substrate_contribution := ((substrate_factor - 1) * 100)%float;
    ink_contribution := ((ink_factor - 1) * 100)%float;
    bcm_contribution := (bcm_factor * 100)%float;
    transfer_factor := (tf * 100)%float;
    transfer_value := tv;
    final_power := round1 uv_vermogen
  |}.

(** [get_recommended_settings]: the recommended power of the row whose
    bcm is closest to [bcm]; [None] without anilox data. *)
Definition get_recommended_settings (bcm : float) : result (option Z) :=
  match anilox_data self with
  | None => Ok None
  | Some frame =>
      let bcm_column := List.map fst frame in
      let distance := List.map (fun b => abs (b - bcm)) bcm_column in
      let first := take 1 (Pandas.argsort distance) in
      picked ← Pandas.iloc_list bcm_column first;
      closest_bcm ← Pandas.iloc picked 0;
      let powers :=
        List.map snd (List.filter (fun row => (fst row =? closest_bcm)%float) frame) in
      power ← Pandas.iloc powers 0;
      mret (Some power)
  end.

End Methods.

End FlexoUVCuring.

(** ** utils.py *)

Module Utils.

(** [0 < bcm <= 20]: both comparisons are between an [int] and a
    float. *)
Definition validate_bcm (bcm : float) : bool :=
  lt (NInt 0) (NFloat bcm) && le (NFloat bcm) (NInt 20).

(** The files the process sees: their contents, and the paths on which
    [open] raises, for reading and for writing alike (a file that can be
    read and not written is not modelled). *)
Record world : Type := {
  files : gmap string string;
  denied : gset string
}.

Definition settings_path : string := "saved_settings.json".

Section Store.
(** The [json] module is outside the repository: [json_dump] gives
    the text written for a list of settings, [json_load] the list read
    from a text, or [None] when it raises. [Json.dump_list] and
    [Json.load_list] above are the ones of the model of [json]. *)
Context {D : Type}.
Variable json_dump : list D -> string.
Variable json_load : string -> option (list D).

(** [save_settings]: an error of [open] is printed and dropped. *)
Definition save_settings (settings : list D) (w : world) : world :=
  if bool_decide (settings_path ∈ denied w) then w
  else {| files := <[settings_path := json_dump settings]> (files w);
          denied := denied w |}.

(** [load_saved_settings]: any failure gives the empty list. *)
Definition load_saved_settings (w : world) : list D :=
  match files w !! settings_path with
  | Some text =>
      if bool_decide (settings_path ∈ denied w) then []
      else default [] (json_load text)
  | None => []
  end.
End Store.

(** [get_help_text]. *)
Definition help_texts : gmap string string := list_to_map [
  ("substrate",
   "Het type materiaal waarop gedrukt wordt. Dit beïnvloedt de UV-absorptie.");
  ("ink_type",
   "Het type inkt dat gebruikt wordt. UV-inkt heeft andere uithardingseisen.");
  ("bcm",
   "BCM (Billion Cubic Microns) is het celvolume van de aniloxwals.");
  ("rasterwals",
   "Het type rasterwals bepaalt de inktoverdracht. Een hogere transfer betekent meer inkt en dus meer UV-vermogen nodig.");
  ("volume",
   "Het specifieke volume van de rasterwals dat de hoeveelheid inkt bepaalt die kan worden overgedragen.");
  ("general",
   "CleverCuring helpt bij het bepalen van de optimale UV-uitharding instellingen voor flexografisch drukwerk.")].

Definition get_help_text (field : string) : string :=
  get help_texts field "".

End Utils.

(** ** app.py: the form and the setting that is saved *)

Module App.
Import FlexoUVCuring Utils.


(** The options of the selection boxes of the form. *)
Definition substraat_options : list string :=
  ["Gecoat papier"; "Ongecoat papier"; "Folie"; "Karton"].

Definition inktsoort_options : list string :=
  ["UV-inkt"; "Watergedragen inkt"; "LED-UV inkt"].

Definition rasterwals_options : list string :=
  ["Hexagonal (20-30% transfer)";
   "Hachure / Trihelical (35-40% transfer)";
   "ART / TIF (40-50% transfer)";
   "GTT UniCoat (25-30% transfer)"].

(** Line 58: [[spec['volume'] for spec in volume_specs]]. *)
Definition volume_options (uv_curing : t) (rasterwals_type : string)
    : result (list value) :=
  mapM (fun sp : spec => getitem sp "volume") (get_volume_specs uv_curing rasterwals_type).

(** Line 70: the specification shown in the info box. *)
Definition spec_info (uv_curing : t) (rasterwals_type selected_volume : string)
    : result (option spec) :=
  next_or_none (volume_is selected_volume) (get_volume_specs uv_curing rasterwals_type).

(** Line 74: [spec_info.get('actual_volume', spec_info['volume'])]; the
    default is evaluated first. *)
Definition info_volume (sp : spec) : result value :=
  volume ← getitem sp "volume";
  mret (get sp "actual_volume" volume).

(** What pressing the button of the form shows: the message of a
    rejected bcm, or the result. *)
Inductive outcome : Type :=
| Rejected (message : string)
| Calculated (result : explanation).

(** Lines 67 and 84 to 88. The bcm is the value [get_bcm_from_volume]
    returned: a string raises in [0 < bcm], and an [int] is compared as
    it is and becomes a float in [bcm * 0.1]. *)
Definition calculate (uv_curing : t)
    (substraat inktsoort rasterwals_type selected_volume : string) : result outcome :=
  bcm ← get_bcm_from_volume uv_curing rasterwals_type selected_volume;
  valid ← match bcm with
          | VNum (NFloat f) => Ok (validate_bcm f, f)
          | VNum (NInt z) => Ok ((0 <? z) && (z <=? 20), float_of_int z)
          | VStr _ => Raise TypeError
          end;
  if negb (fst valid) then mret (Rejected "BCM waarde moet tussen 0 en 20 liggen.")
  else
    res ← bereken_uv_vermogen uv_curing substraat inktsoort (snd valid)
            rasterwals_type selected_volume;
    mret (Calculated res).

End App.

(** ** The specification's formula *)

Module Spec.

(** The substrate table, default 1.0. *)
Definition substrateFactor (substrate : string) : float :=
  if bool_decide (substrate = "Gecoat papier") then 1.0
  else if bool_decide (substrate = "Ongecoat papier") then 1.2
  else if bool_decide (substrate = "Folie") then 1.3
  else if bool_decide (substrate = "Karton") then 1.1
  else 1.0.

(** The ink table, default 1.0. *)
Definition inkFactor (inkType : string) : float :=
  if bool_decide (inkType = "UV-inkt") then 1.0
  else if bool_decide (inkType = "Watergedragen inkt") then 1.2
  else if bool_decide (inkType = "LED-UV inkt") then 0.9
  else 1.0.

(** Steps 6 and 7. *)
Definition power (substrate inkType : string) (bcm transferFactor : float) : float :=
  let p := (40 * substrateFactor substrate * inkFactor inkType * (1 + bcm * 0.1))%float in
  (p * (1 + transferFactor))%float.

(** [c] is [x] clamped to [[lo, hi]]: [c] lies in the interval, it is
    [x] when [x] lies in the interval, and the bound [x] is beyond
    otherwise. Equality is that of numbers, which does not separate
    the [int] 20 from the float 20.0. *)
Definition clamped (x : float) (lo hi : Z) (c : num) : Prop :=
  le (NInt lo) c = true /\ le c (NInt hi) = true /\
  (le (NInt lo) (NFloat x) = true -> le (NFloat x) (NInt hi) = true ->
   num_eq c (NFloat x) = true) /\
  (lt (NFloat x) (NInt lo) = true -> c = NInt lo) /\
  (lt (NInt hi) (NFloat x) = true -> c = NInt hi).

(** The leading token of a transfer string: the characters before the
    first white space. *)
Fixpoint leading_token (s : string) : string :=
  match s with
  | EmptyString => EmptyString
  | String c s' => if is_space c then EmptyString else String c (leading_token s')
  end.

(** The midpoint of a transfer range. *)
Definition transferAvg (range : float * float) : float :=
  ((fst range + snd range) / 2)%float.

End Spec.

(** ** Notions used to state the properties *)

Import FlexoUVCuring Utils Spec.

(** The transfer range and the specifications a roller type resolves to,
    with the defaults of the lookups. *)
Definition row (self : t) (r : string) : (float * float) * list spec :=
  (get (transfer_ranges self) r (0.25, 0.30)%float, get (volume_specs self) r []).

(** The volume label of a specification, when it has one. *)
Definition label_of (sp : spec) : option string :=
  match sp !! "volume" with Some (VStr l) => Some l | _ => None end.

(** The first specification of a list with a given label. *)
Definition find_spec (v : string) (specs : list spec) : option spec :=
  List.find (fun sp => bool_decide (label_of sp = Some v)) specs.

(** What the tables guarantee of every specification: it has a label and
    a bcm, and the first token of its transfer string reads as a number. *)
Record spec_ok (sp : spec) : Prop := {
  ok_label : is_Some (label_of sp);
  ok_truthy : truthy sp = true;
  ok_bcm : exists f, sp !! "bcm" = Some (VFloat f);
  ok_transfer : exists t tv,
    sp !! "transfer" = Some (VStr t) /\
    index (split_go t None) 0 = Ok (leading_token t) /\
    float_of_string (leading_token t) = Ok tv
}.

(** The bcm of [a] is a number strictly below that of [b]. *)
Definition bcm_lt (a b : spec) : Prop :=
  exists x y, a !! "bcm" = Some (VNum x) /\ b !! "bcm" = Some (VNum y) /\ lt x y = true.

(** The exact value of a finite float, as a rational. *)
Definition float_value (f : float) : option Q :=
  match Prim2SF f with
  | S754_zero _ => Some 0%Q
  | S754_finite s m e =>
      let v := if s then Zneg m else Zpos m in
      Some (if 0 <=? e then inject_Z (v * 2 ^ e) else Qmake v (Z.to_pos (2 ^ (- e))))
  | _ => None
  end.

(** The two tables of [power_factors]. *)
Definition substraat_table : gmap string float :=
  dict [("Gecoat papier", 1.0%float); ("Ongecoat papier", 1.2%float);
        ("Folie", 1.3%float); ("Karton", 1.1%float)].

Definition inktsoort_table : gmap string float :=
  dict [("UV-inkt", 1.0%float); ("Watergedragen inkt", 1.2%float);
        ("LED-UV inkt", 0.9%float)].



(** ** Notions used in the proofs *)

(** The float read from the decimal of [t] tenths is at least the
    integer part of the decimal and at most 100. *)
Definition tenth_ok (t : Z) : bool :=
  let f := NFloat (strtod false (Z.to_N t) (-1)) in
  le (NInt (t / 10)) f && le f (NInt 100).

(** Powers of two and the real value of a mantissa and exponent. *)
Definition bpow (e : Z) : R := powerRZ 2 e.

Definition F2R (m e : Z) : R := (IZR m * bpow e)%R.

(** The mantissa [m] is canonical for the exponent [e]. *)
Definition canonical (m : positive) (e : Z) : Prop :=
  fexp prec emax (Zpos (digits2_pos m) + e) = e.

(** [x] is [+inf] or a positive finite float of value at least [c]. *)
Definition sf_ge (x : spec_float) (c : R) : Prop :=
  x = S754_infinity false \/
  exists m e, x = S754_finite false m e /\ (c <= F2R (Zpos m) e)%R.

(** [x] is [+0], [+inf] or a positive finite float. *)
Definition sf_nonneg (x : spec_float) : Prop :=
  x = S754_zero false \/ x = S754_infinity false \/
  exists m e, x = S754_finite false m e.

(** The float 1.0. *)
Definition sf_one : spec_float := S754_finite false 4503599627370496 (-52).

(** [x] is [+inf] or positive and finite with value at least [n / d]. *)
Definition sf_geb (x : spec_float) (n d : Z) : bool :=
  match x with
  | S754_infinity false => true
  | S754_finite false m e =>
      if 0 <=? e then n <=? Zpos m * 2 ^ e * d
      else n * 2 ^ (- e) <=? Zpos m * d
  | _ => false
  end.

(** A transfer factor is above 0 and at least 1/8. *)
Definition tf_ok (tf : float) : bool :=
  sf_geb (Prim2SF (1 + tf)%float) 9 8 && lt (NInt 0) (NFloat tf).

(** A text for a list of empty records, one character per record. *)
Definition dump_units (l : list unit) : string :=
  string_of_list_ascii (List.map (fun _ => "n"%char) l).

Definition load_units (s : string) : option (list unit) :=
  Some (List.map (fun _ => tt) (list_ascii_of_string s)).

(** The volume labels of a list of specifications. *)
Definition labels_of (specs : list spec) : list string := omap label_of specs.

(** The factors [power_factors] can give, the default included. *)
Definition substrate_factors : list float := [1.0; 1.2; 1.3; 1.1]%float.
Definition ink_factors : list float := [1.0; 1.2; 0.9]%float.

(** What the form computes from a specification of a roller with the
    transfer range [range]: its bcm is valid, and with all factors the
    final power lies between 60 and 100. *)
Definition form_ok (range : float * float) (sp : spec) : bool :=
  match sp !! "bcm", sp !! "transfer" with
  | Some (VNum (NFloat f)), Some (VStr t) =>
      match float_of_string (leading_token t) with
      | Ok tv =>
          validate_bcm f &&
          forallb (fun sf =>
            forallb (fun kf =>
              let p := round1 (limit (uv_vermogen_raw sf kf (f * 0.1)
                                        (transferAvg range * (tv / 3.0)))) in
              le (NInt 60) p && le p (NInt 100)) ink_factors) substrate_factors
      | Raise _ => false
      end
  | _, _ => false
  end.

(** The transfer factors of the tables lie between that of the smallest
    hexagonal volume and that of the largest ART / TIF volume. *)
Definition tf_bounded (tf : float) : bool :=
  (0.25 * (1.8 / 3.0) <=? tf)%float && (tf <=? 0.45 * (7.5 / 3.0))%float.

(** The rank of a float that is not NaN: such floats compare as their
    ranks do, component by component. *)
Definition sf_rank (x : spec_float) : Z * Z * Z :=
  match x with
  | S754_infinity true => (-2, 0, 0)
  | S754_finite true m e => (-1, - e, Zneg m)
  | S754_zero _ | S754_nan => (0, 0, 0)
  | S754_finite false m e => (1, e, Zpos m)
  | S754_infinity false => (2, 0, 0)
  end.

Definition rank_compare (a b : Z * Z * Z) : comparison :=
  match fst (fst a) ?= fst (fst b) with
  | Eq => match snd (fst a) ?= snd (fst b) with
          | Eq => snd a ?= snd b
          | c => c
          end
  | c => c
  end.

(** [a] is not above [b], for floats that are not NaN. *)
Definition rank_le (a b : Z * Z * Z) : Prop :=
  fst (fst a) < fst (fst b) \/
  (fst (fst a) = fst (fst b) /\
   (snd (fst a) < snd (fst b) \/ (snd (fst a) = snd (fst b) /\ snd a <= snd b))).

(** The final power the form computes from a specification of a roller
    with the transfer range [range], for given factors. *)
Definition form_power (range : float * float) (sp : spec) (sf kf : float) : option num :=
  match sp !! "bcm", sp !! "transfer" with
  | Some (VNum (NFloat f)), Some (VStr t) =>
      match float_of_string (leading_token t) with
      | Ok tv =>
          Some (round1 (limit (uv_vermogen_raw sf kf (f * 0.1)
                                 (transferAvg range * (tv / 3.0)))))
      | Raise _ => None
      end
  | _, _ => None
  end.

(** Among the specifications of a roller the final power does not
    decrease when the bcm does not, with all factors. *)
Definition grows (range : float * float) (specs : list spec) : bool :=
  forallb (fun a =>
    forallb (fun b =>
      match a !! "bcm", b !! "bcm" with
      | Some (VNum (NFloat fa)), Some (VNum (NFloat fb)) =>
          negb (fa <=? fb)%float ||
          forallb (fun sf =>
            forallb (fun kf =>
              match form_power range a sf kf, form_power range b sf kf with
              | Some pa, Some pb => le pa pb
              | _, _ => false
              end) ink_factors) substrate_factors
      | _, _ => false
      end) specs) specs.


(** ** The runtime on examples *)

(** Rounding works on the exact binary value: 2.675 is stored slightly
    below and still rounds to 2.7 at one decimal, 0.35 is stored below
    and rounds to 0.3, and the exact ties 0.25 and 0.75 go to the even
    decimal. *)
Example round1_examples :
  round1_float 2.675 = 2.7%float /\ round1_float 0.35 = 0.3%float /\
  round1_float 0.25 = 0.2%float /\ round1_float 0.75 = 0.8%float /\
  round1 (NInt 20) = NInt 20.
Proof. vm_compute. repeat split; reflexivity. Qed.

Example float_of_string_examples :
  float_of_string "3.25" = Ok 3.25%float /\
  float_of_string "g/m²" = Raise ValueError /\
  split (VStr "2.5 g/m²") = Ok ["2.5"; "g/m²"].
Proof. vm_compute. repeat split; reflexivity. Qed.

(** An [int] and a float are compared exactly: 2^53 + 1 is above the
    float 2^53, to which it would be rounded. *)
Example exact_comparison :
  lt (NFloat 9007199254740992) (NInt 9007199254740993) = true /\
  num_eq (NInt 20) (NFloat 20) = true /\
  lt (NInt 0) (NFloat nan) = false.
Proof. vm_compute. repeat split; reflexivity. Qed.

(** ** The tables *)

(** A roller type resolves to one of the four rows or to the defaults. *)
Lemma row_cases built (P : (float * float) * list spec -> Prop) :
  P (row (init built) hexagonal) -> P (row (init built) hachure) ->
  P (row (init built) art_tif) -> P (row (init built) gtt) ->
  P ((0.25, 0.30)%float, []) ->
  forall r, P (row (init built) r).
Proof.
  intros H1 H2 H3 H4 H5 r.
  destruct (decide (r = hexagonal)) as [->|N1]; [exact H1|].
  destruct (decide (r = hachure)) as [->|N2]; [exact H2|].
  destruct (decide (r = art_tif)) as [->|N3]; [exact H3|].
  destruct (decide (r = gtt)) as [->|N4]; [exact H4|].
  unfold row, get, init, dict;
    cbn [transfer_ranges volume_specs list_to_map foldr uncurry fst snd].
  rewrite !lookup_insert_ne, !lookup_empty by congruence.
  exact H5.
Qed.

Lemma volume_is_label sp v l :
  label_of sp = Some l -> volume_is v sp = Ok (bool_decide (l = v)).
Proof.
  unfold label_of, volume_is, getitem. intros H.
  destruct (sp !! "volume") as [[s|n]|]; try discriminate.
  injection H as ->. reflexivity.
Qed.

(** The [for] loop returns at the first specification with the label. *)
Lemma for_return_find {B} v (body : spec -> result B) d specs :
  Forall (fun sp => is_Some (label_of sp)) specs ->
  for_return (volume_is v) body d specs =
  match find_spec v specs with Some sp => body sp | None => Ok d end.
Proof.
  induction 1 as [|sp specs [l Hl] _ IH]; [reflexivity|].
  cbn [for_return find_spec List.find]. rewrite (volume_is_label _ _ _ Hl), Hl.
  cbn. fold (find_spec v specs).
  destruct (decide (l = v)) as [->|N].
  - rewrite !bool_decide_eq_true_2 by reflexivity. reflexivity.
  - rewrite !bool_decide_eq_false_2 by congruence. exact IH.
Qed.

Lemma next_or_none_find v specs :
  Forall (fun sp => is_Some (label_of sp)) specs ->
  next_or_none (volume_is v) specs = Ok (find_spec v specs).
Proof.
  induction 1 as [|sp specs [l Hl] _ IH]; [reflexivity|].
  cbn [next_or_none find_spec List.find]. rewrite (volume_is_label _ _ _ Hl), Hl.
  cbn. fold (find_spec v specs).
  destruct (decide (l = v)) as [->|N].
  - rewrite !bool_decide_eq_true_2 by reflexivity. reflexivity.
  - rewrite !bool_decide_eq_false_2 by congruence. exact IH.
Qed.

Lemma find_spec_Some v specs sp :
  find_spec v specs = Some sp -> In sp specs /\ label_of sp = Some v.
Proof.
  intros H. apply List.find_some in H as [H1 H2]. split; [exact H1|].
  apply bool_decide_eq_true_1 in H2. exact H2.
Qed.

Lemma find_spec_None v specs :
  (forall sp, In sp specs -> sp !! "volume" <> Some (VStr v)) ->
  find_spec v specs = None.
Proof.
  intros H. destruct (find_spec v specs) as [sp|] eqn:E; [|reflexivity].
  apply find_spec_Some in E as [Hin Hl]. exfalso. apply (H sp Hin).
  unfold label_of in Hl. destruct (sp !! "volume") as [[s|n]|]; try discriminate.
  congruence.
Qed.

Ltac spec_ok_tac :=
  split; [eexists; reflexivity | reflexivity | eexists; reflexivity
         | do 2 eexists; split; [reflexivity | split; vm_compute; reflexivity]].

Lemma row_ok built r : Forall spec_ok (snd (row (init built) r)).
Proof.
  apply (row_cases built (fun p => Forall spec_ok (snd p)));
    destruct built; repeat (constructor; [spec_ok_tac|]); constructor.
Qed.

Lemma row_labelled built r :
  Forall (fun sp => is_Some (label_of sp)) (get (volume_specs (init built)) r []).
Proof.
  eapply Forall_impl; [apply (row_ok built r)|]. intros sp H. apply H.
Qed.

Lemma spec_ok_in built r sp :
  In sp (get_volume_specs (init built) r) -> spec_ok sp.
Proof.
  intros H. pose proof (row_ok built r) as F.
  rewrite List.Forall_forall in F. exact (F sp H).
Qed.

(** [sum(transfer_range) / 2] is the midpoint: adding to the [int] 0
    changes none of the bounds of the table. *)
Lemma sum_range built r :
  let range := get (transfer_ranges (init built)) r (0.25, 0.30)%float in
  (Py.sum [fst range; snd range] / 2)%float = transferAvg range.
Proof.
  apply (row_cases built (fun p =>
    (Py.sum [fst (fst p); snd (fst p)] / 2)%float = transferAvg (fst p)));
    destruct built; vm_compute; reflexivity.
Qed.

(** The compensated sum gives the same midpoints. *)
Lemma sum_range_compensated built r :
  let range := get (transfer_ranges (init built)) r (0.25, 0.30)%float in
  sum_compensated [fst range; snd range] = Py.sum [fst range; snd range].
Proof.
  apply (row_cases built (fun p =>
    sum_compensated [fst (fst p); snd (fst p)] = Py.sum [fst (fst p); snd (fst p)]));
    destruct built; vm_compute; reflexivity.
Qed.

Lemma power_factors_substraat : getitem power_factors "substraat" = Ok substraat_table.
Proof. reflexivity. Qed.

Lemma power_factors_inktsoort : getitem power_factors "inktsoort" = Ok inktsoort_table.
Proof. reflexivity. Qed.

Ltac table_lookup s k :=
  destruct (decide (s = k)) as [->|?];
  [ rewrite ?lookup_insert_eq, ?bool_decide_eq_true_2 by reflexivity; reflexivity
  | rewrite lookup_insert_ne, bool_decide_eq_false_2 by congruence ].

Lemma substraat_get s : get substraat_table s 1.0%float = substrateFactor s.
Proof.
  unfold get, substraat_table, dict, substrateFactor.
  cbn [list_to_map foldr uncurry fst snd].
  table_lookup s "Gecoat papier". table_lookup s "Ongecoat papier".
  table_lookup s "Folie". table_lookup s "Karton".
  rewrite lookup_empty. reflexivity.
Qed.

Lemma inktsoort_get s : get inktsoort_table s 1.0%float = inkFactor s.
Proof.
  unfold get, inktsoort_table, dict, inkFactor.
  cbn [list_to_map foldr uncurry fst snd].
  table_lookup s "UV-inkt". table_lookup s "Watergedragen inkt".
  table_lookup s "LED-UV inkt".
  rewrite lookup_empty. reflexivity.
Qed.

(** ** The lookups *)

Lemma transfer_factor_cases built r v :
  let self := init built in
  let avg := transferAvg (get (transfer_ranges self) r (0.25, 0.30)%float) in
  match find_spec v (get_volume_specs self r) with
  | Some sp =>
      exists t tv,
        sp !! "transfer" = Some (VStr t) /\
        float_of_string (leading_token t) = Ok tv /\
        calculate_transfer_factor self r v = Ok (avg * (tv / 3.0))%float
  | None => calculate_transfer_factor self r v = Ok avg
  end.
Proof.
  cbn zeta. unfold calculate_transfer_factor.
  rewrite (next_or_none_find v _ (row_labelled built r)).
  pose proof (sum_range built r) as Hs. cbn zeta in Hs.
  rewrite Hs. unfold get_volume_specs. cbn [mbind result_bind].
  destruct (find_spec v _) as [sp|] eqn:E; [|reflexivity].
  apply find_spec_Some in E as [Hin _].
  destruct (spec_ok_in built r sp Hin) as [_ Ht _ (t & tv & H1 & H2 & H3)].
  exists t, tv. rewrite Ht. unfold getitem. rewrite H1.
  cbn [mbind result_bind split]. rewrite H2. cbn [mbind result_bind].
  rewrite H3. repeat split; reflexivity.
Qed.

Lemma get_bcm_total built r v :
  exists f, get_bcm_from_volume (init built) r v = Ok (VFloat f).
Proof.
  unfold get_bcm_from_volume. rewrite (for_return_find v _ _ _ (row_labelled built r)).
  destruct (find_spec v _) as [sp|] eqn:E; [|eexists; reflexivity].
  apply find_spec_Some in E as [Hin _].
  destruct (spec_ok_in built r sp Hin) as [_ _ [f Hf] _].
  exists f. unfold getitem. rewrite Hf. reflexivity.
Qed.

Lemma get_transfer_total built r v :
  exists t, get_transfer_from_volume (init built) r v = Ok (VStr t).
Proof.
  unfold get_transfer_from_volume.
  rewrite (for_return_find v _ _ _ (row_labelled built r)).
  destruct (find_spec v _) as [sp|] eqn:E; [|eexists; reflexivity].
  apply find_spec_Some in E as [Hin _].
  destruct (spec_ok_in built r sp Hin) as [_ _ _ (t & tv & Ht & _)].
  exists t. unfold getitem. rewrite Ht. reflexivity.
Qed.

Lemma calculate_transfer_factor_total built r v :
  exists tf, calculate_transfer_factor (init built) r v = Ok tf.
Proof.
  pose proof (transfer_factor_cases built r v) as H. cbn zeta in H.
  destruct (find_spec v _); [destruct H as (t & tv & _ & _ & H)|]; eauto.
Qed.

(** The result of [bereken_uv_vermogen], in the terms of the formula. *)
Lemma bereken_uv_vermogen_eq built s i bcm r v :
  exists tf tv,
    calculate_transfer_factor (init built) r v = Ok tf /\
    get_transfer_from_volume (init built) r v = Ok tv /\
    bereken_uv_vermogen (init built) s i bcm r v = Ok {|
      base_power := 40;
      substrate_contribution := ((substrateFactor s - 1) * 100)%float;
      ink_contribution := ((inkFactor i - 1) * 100)%float;
      bcm_contribution := (bcm * 0.1 * 100)%float;
      transfer_factor := (tf * 100)%float;
      transfer_value := tv;
      final_power := round1 (limit (power s i bcm tf))
    |}.
Proof.
  destruct (calculate_transfer_factor_total built r v) as [tf Htf].
  destruct (get_transfer_total built r v) as [t Ht].
  exists tf, (VStr t). split; [exact Htf|]. split; [exact Ht|].
  unfold bereken_uv_vermogen.
  rewrite power_factors_substraat, power_factors_inktsoort.
  cbn [mbind result_bind]. rewrite Htf, Ht. cbn [mbind result_bind].
  rewrite substraat_get, inktsoort_get. reflexivity.
Qed.

(** *** Comparisons of a float with integers *)

Lemma float_cmp_int_cases f :
  (forall z, float_cmp_int f z = None) \/
  (forall z, float_cmp_int f z = Some Lt) \/
  (forall z, float_cmp_int f z = Some Gt) \/
  exists n d, 0 < d /\ forall z, float_cmp_int f z = Some (n ?= z * d).
Proof.
  unfold float_cmp_int. destruct (Prim2SF f) as [s|s| |s m e].
  - right. right. right. exists 0, 1. split; [lia|]. intros z. rewrite Z.mul_1_r. reflexivity.
  - destruct s; [right; left | right; right; left]; reflexivity.
  - left. reflexivity.
  - right. right. right. destruct (0 <=? e) eqn:E.
    + eexists _, 1. split; [lia|]. intros z. rewrite Z.mul_1_r. reflexivity.
    + eexists _, (2 ^ (- e)). split; [|reflexivity].
      apply Z.pow_pos_nonneg; lia.
Qed.

Lemma SFcompare_refl x : x <> S754_nan -> SFcompare x x = Some Eq.
Proof.
  destruct x as [[|]|[|]| |[|] m e]; try reflexivity; try congruence; intros _;
    cbn [SFcompare]; rewrite Z.compare_refl;
    change (Pos.compare_cont Eq m m) with (m ?= m)%positive;
    rewrite Pos.compare_refl; reflexivity.
Qed.

Lemma float_cmp_refl x z c : float_cmp_int x z = Some c -> float_cmp x x = Some Eq.
Proof.
  intros H. unfold float_cmp. rewrite FloatAxioms.compare_spec, SFcompare_refl; [reflexivity|].
  intros N. unfold float_cmp_int in H. rewrite N in H. discriminate.
Qed.

(** [max(20, min(x, 100))] clamps [x] to [[20, 100]]. *)
Lemma limit_clamped x : clamped x 20 100 (limit x).
Proof.
  unfold clamped.
  destruct (float_cmp_int_cases x) as [H|[H|[H|(n & d & Hd & H)]]];
    unfold limit, Py.max, Py.min, gt, lt, le, num_eq, num_cmp;
    rewrite ?H; cbn [option_map CompOpp]; rewrite ?H; cbn [option_map CompOpp];
    try (repeat split; intros; (reflexivity || discriminate)).
  pose proof (float_cmp_refl x 0 _ (H 0)) as R.
  destruct (Z.compare_spec n (100 * d)) as [E1|E1|E1]; cbn [CompOpp];
    rewrite ?H; cbn [option_map CompOpp];
    destruct (Z.compare_spec n (20 * d)) as [E2|E2|E2]; cbn [CompOpp];
    try lia; rewrite ?H; cbn [option_map CompOpp];
    repeat match goal with
           | |- context [?a ?= ?b] =>
               let E := fresh in destruct (Z.compare_spec a b) as [E|E|E]; try lia
           end; cbn [CompOpp]; rewrite ?R;
    repeat split; intros; try reflexivity; try discriminate.
Qed.

(** ** The limits and the rounding *)

(** Rounding [n / d] to an integer stays between the integers around it. *)
Lemma round_half_even_bounds n d a b :
  0 < d -> a * d <= n -> n <= b * d ->
  a <= round_half_even n d <= b.
Proof.
  intros Hd Ha Hb. unfold round_half_even.
  pose proof (Z.div_mod n d ltac:(lia)) as E.
  pose proof (Z.mod_pos_bound n d Hd) as M.
  assert (a <= n / d) by (apply Z.div_le_lower_bound; lia).
  assert (n / d <= b) by (apply Z.div_le_upper_bound; lia).
  destruct (Z.compare_spec (2 * (n mod d)) d) as [C|C|C];
    [destruct (Z.even (n / d))| |]; try lia; nia.
Qed.

(** A lower bound of a float by an integer carries to smaller integers. *)
Lemma le_int_mono f a b :
  a <= b -> le (NInt b) (NFloat f) = true -> le (NInt a) (NFloat f) = true.
Proof.
  intros Hab. unfold le, num_cmp.
  destruct (float_cmp_int_cases f) as [H|[H|[H|(n & d & Hd & H)]]]; rewrite !H;
    cbn [option_map CompOpp]; try (intros; assumption).
  destruct (Z.compare_spec n (b * d)); cbn [CompOpp]; try discriminate; intros _;
    destruct (Z.compare_spec n (a * d)); cbn [CompOpp]; try reflexivity; nia.
Qed.

(** The decimals from 20.0 to 100.0 are read as floats that are at least
    their integer part and at most 100. *)
Lemma tenths_table : forallb tenth_ok (List.map (fun k => 200 + Z.of_nat k) (seq 0 801)) = true.
Proof. vm_compute. reflexivity. Qed.

Lemma tenth_ok_range t : 200 <= t <= 1000 -> tenth_ok t = true.
Proof.
  intros H. pose proof tenths_table as T. rewrite forallb_forall in T.
  apply T. apply in_map_iff. exists (Z.to_nat (t - 200)). split; [lia|].
  apply in_seq. lia.
Qed.

Lemma lt_int_mono f a b :
  a <= b -> lt (NInt b) (NFloat f) = true -> lt (NInt a) (NFloat f) = true.
Proof.
  intros Hab. unfold lt, num_cmp.
  destruct (float_cmp_int_cases f) as [H|[H|[H|(n & d & Hd & H)]]]; rewrite !H;
    cbn [option_map CompOpp]; try (intros; assumption).
  destruct (Z.compare_spec n (b * d)); cbn [CompOpp]; try discriminate; intros _;
    destruct (Z.compare_spec n (a * d)); cbn [CompOpp]; try reflexivity; nia.
Qed.

(** The three outcomes of [max(20, min(x, 100))]. *)
Lemma limit_cases x :
  (limit x = NInt 20 /\ lt (NInt 20) (NFloat x) = false) \/
  limit x = NInt 100 \/
  (limit x = NFloat x /\ lt (NInt 20) (NFloat x) = true /\
   lt (NInt 100) (NFloat x) = false).
Proof.
  unfold limit, Py.max, Py.min, gt.
  destruct (lt (NInt 100) (NFloat x)) eqn:H100.
  - right. left. reflexivity.
  - destruct (lt (NInt 20) (NFloat x)) eqn:H20.
    + right. right. repeat split. 
    + left. split; reflexivity.
Qed.

(** A float above [L] and not above 100 is finite and positive, and the
    number of its tenths lies between [10 * L] and 1000. *)
Lemma float_tenths_bounds x L :
  0 <= L ->
  lt (NInt L) (NFloat x) = true -> lt (NInt 100) (NFloat x) = false ->
  exists m e, Prim2SF x = S754_finite false m e /\ 10 * L <= tenths m e <= 1000.
Proof.
  intros HL. unfold lt, num_cmp, float_cmp_int, tenths.
  destruct (Prim2SF x) as [s|[|]| |s m e]; cbn [option_map CompOpp]; try discriminate.
  - destruct (Z.compare_spec 0 L); cbn [CompOpp]; try discriminate; lia.
  - set (z := if s then Z.neg m else Z.pos m).
    destruct (0 <=? e) eqn:E.
    + assert (0 < 2 ^ e) by (apply Z.pow_pos_nonneg; lia).
      destruct (Z.compare_spec (z * 2 ^ e) L); cbn [CompOpp]; try discriminate; intros _.
      destruct (Z.compare_spec (z * 2 ^ e) 100); cbn [CompOpp]; try discriminate; intros _;
        (destruct s; [subst z; exfalso; pose proof (Pos2Z.neg_is_neg m); nia|]); exists m, e; (split; [reflexivity|]); subst z;
        rewrite E, <- Z.mul_assoc; lia.
    + assert (0 < 2 ^ (- e)) by (apply Z.pow_pos_nonneg; lia).
      destruct (Z.compare_spec z (L * 2 ^ (- e))); cbn [CompOpp]; try discriminate; intros _.
      destruct (Z.compare_spec z (100 * 2 ^ (- e))); cbn [CompOpp]; try discriminate; intros _;
        (destruct s; [subst z; exfalso; pose proof (Pos2Z.neg_is_neg m); nia|]); exists m, e; (split; [reflexivity|]); subst z;
        rewrite E; apply round_half_even_bounds; lia.
Qed.

(** The rounded limited power is at most 100, and at least [L] when
    the power is above [L] (or [L] is the lower limit itself). *)
Lemma round1_limit_bounds L x :
  20 <= L <= 100 ->
  L = 20 \/ lt (NInt L) (NFloat x) = true ->
  le (NInt L) (round1 (limit x)) = true /\ le (round1 (limit x)) (NInt 100) = true.
Proof.
  intros HL Hx.
  destruct (limit_cases x) as [[-> H20]|[->|(-> & H20 & H100)]].
  - assert (L = 20) as ->.
    { destruct Hx as [?|Hx]; [assumption|].
      apply (lt_int_mono x 20 L) in Hx; [congruence|lia]. }
    split; reflexivity.
  - unfold le; cbn. destruct (Z.compare_spec L 100); try lia; split; reflexivity.
  - assert (HLx : lt (NInt L) (NFloat x) = true).
    { destruct Hx as [->|?]; assumption. }
    destruct (float_tenths_bounds x L ltac:(lia) HLx H100) as (m & e & E & Ht).
    cbn [round1]. unfold round1_float. rewrite E.
    pose proof (tenth_ok_range (tenths m e) ltac:(lia)) as T.
    unfold tenth_ok in T. apply andb_true_iff in T as [T1 T2].
    split; [|exact T2].
    apply (le_int_mono _ L (tenths m e / 10)); [|exact T1].
    apply Z.div_le_lower_bound; lia.
Qed.

(** ** Lower bounds through the float operations *)

Lemma bpow_pos e : (0 < bpow e)%R.
Proof. apply powerRZ_lt. lra. Qed.

Lemma bpow_add a b : bpow (a + b) = (bpow a * bpow b)%R.
Proof. apply powerRZ_add. lra. Qed.

(** On the exponents that are not negative [bpow] is the power of integers. *)
Lemma bpow_Z e : 0 <= e -> bpow e = IZR (2 ^ e).
Proof.
  intros H. unfold bpow. rewrite <- (Z2Nat.id e H) at 2.
  rewrite <- pow_IZR. rewrite <- (Z2Nat.id e H) at 1.
  rewrite <- pow_powerRZ. reflexivity.
Qed.

Lemma bpow_le a b : a <= b -> (bpow a <= bpow b)%R.
Proof.
  intros H. replace b with (a + (b - a)) by lia. rewrite bpow_add.
  rewrite (bpow_Z (b - a)) by lia.
  assert (1 <= 2 ^ (b - a)) by (pose proof (Z.pow_pos_nonneg 2 (b - a)); lia).
  apply IZR_le in H0. pose proof (bpow_pos a). nra.
Qed.

(** Moving a factor [2^k] from the mantissa to the exponent. *)
Lemma F2R_shift m e k : 0 <= k -> F2R (m * 2 ^ k) e = F2R m (e + k).
Proof.
  intros H. unfold F2R. rewrite mult_IZR, bpow_add, <- (bpow_Z k H),
    (Rmult_comm (bpow e)). ring.
Qed.

Lemma F2R_le m n e : m <= n -> (F2R m e <= F2R n e)%R.
Proof.
  intros H. unfold F2R. apply IZR_le in H. pose proof (bpow_pos e). nra.
Qed.

Lemma F2R_le_inv m n e : (F2R m e <= F2R n e)%R -> m <= n.
Proof.
  unfold F2R. intros H. apply le_IZR. pose proof (bpow_pos e). nra.
Qed.

Lemma F2R_pos m e : 0 < m -> (0 < F2R m e)%R.
Proof.
  intros H. unfold F2R. apply IZR_lt in H. pose proof (bpow_pos e). nra.
Qed.

Lemma F2R_pos_inv m e : (0 < F2R m e)%R -> 0 < m.
Proof.
  unfold F2R. intros H. apply lt_IZR. pose proof (bpow_pos e). nra.
Qed.

Lemma F2R_mul m1 e1 m2 e2 : F2R (m1 * m2) (e1 + e2) = (F2R m1 e1 * F2R m2 e2)%R.
Proof. unfold F2R. rewrite mult_IZR, bpow_add. ring. Qed.

(** *** Digits and canonical mantissas *)

(** The number of binary digits of a mantissa. *)
Lemma digits2_pos_size m : digits2_pos m = Pos.size m.
Proof. induction m as [m IH|m IH|]; cbn; rewrite ?IH; reflexivity. Qed.

Lemma digits_bounds m :
  2 ^ (Zpos (digits2_pos m) - 1) <= Zpos m < 2 ^ Zpos (digits2_pos m).
Proof.
  rewrite digits2_pos_size.
  pose proof (Pos.size_gt m) as G. pose proof (Pos.size_le m) as L.
  apply Pos2Z.pos_lt_pos in G. apply Pos2Z.pos_le_pos in L.
  rewrite Pos2Z.inj_pow in G, L. change (Z.pos m~0) with (2 * Z.pos m) in L.
  replace (Z.pos (Pos.size m)) with (Z.pos (Pos.size m) - 1 + 1) in L at 1 by lia.
  rewrite Z.pow_add_r, Z.pow_1_r in L by lia. lia.
Qed.

(** *** Shifting a mantissa to the right *)

(** One step to the right halves the mantissa. *)
Lemma shr_1_m mrs : 0 <= shr_m mrs -> shr_m (shr_1 mrs) = shr_m mrs / 2.
Proof.
  destruct mrs as [m r s]. cbn [shr_m]. intros H.
  destruct m as [|[p|p|]|p]; try lia.
  - reflexivity.
  - change (Z.pos p = Z.pos p~1 / 2). apply (Z.div_unique _ _ _ 1); lia.
  - change (Z.pos p = Z.pos p~0 / 2). apply (Z.div_unique _ _ _ 0); lia.
  - reflexivity.
Qed.

Lemma pow2_double p : 2 ^ Z.pos p~0 = 2 ^ Z.pos p * 2 ^ Z.pos p.
Proof. rewrite <- Z.pow_add_r by lia. f_equal. lia. Qed.

(** [p] steps to the right divide the mantissa by [2^p]. *)
Lemma shr_m_iter p : forall mrs,
  0 <= shr_m mrs ->
  shr_m (SpecFloat.iter_pos shr_1 p mrs) = shr_m mrs / 2 ^ Zpos p.
Proof.
  assert (Hnn : forall a b, 0 <= a -> 0 < b -> 0 <= a / b)
    by (intros; apply Z.div_pos; lia).
  induction p as [p IH|p IH|]; intros mrs H; cbn [SpecFloat.iter_pos].
  - assert (H2 : 0 < 2 ^ Z.pos p) by (apply Z.pow_pos_nonneg; lia).
    assert (H1 : 0 <= shr_m (shr_1 mrs)) by (rewrite shr_1_m by lia; apply Hnn; lia).
    pose proof (IH _ H1) as E1.
    assert (H3 : 0 <= shr_m (SpecFloat.iter_pos shr_1 p (shr_1 mrs)))
      by (rewrite E1; apply Hnn; lia).
    rewrite (IH _ H3), E1, shr_1_m by lia. rewrite !Z.div_div by lia.
    f_equal. change (Z.pos p~1) with (Z.pos p~0 + 1).
    rewrite Z.pow_add_r, Z.pow_1_r, pow2_double by lia. ring.
  - assert (H2 : 0 < 2 ^ Z.pos p) by (apply Z.pow_pos_nonneg; lia).
    pose proof (IH _ H) as E1.
    assert (H3 : 0 <= shr_m (SpecFloat.iter_pos shr_1 p mrs))
      by (rewrite E1; apply Hnn; lia).
    rewrite (IH _ H3), E1. rewrite !Z.div_div by lia.
    f_equal. rewrite pow2_double. reflexivity.
  - rewrite shr_1_m by assumption. reflexivity.
Qed.

(** Rounding to nearest keeps the truncated mantissa or adds one. *)
Lemma round_nearest_even_bounds m l :
  m <= round_nearest_even m l <= m + 1.
Proof.
  unfold round_nearest_even. destruct l as [|[| |]]; try lia.
  destruct (Z.even m); lia.
Qed.

(** *** Rounding keeps the floats below a value below the result *)

Ltac unfold_fexp := unfold canonical, fexp, SpecFloat.emin, prec, emax in *.

Lemma F2R_one e : F2R 1 e = bpow e.
Proof. unfold F2R. ring. Qed.

(** Truncating [M * 2^E] to the exponent of its binade does not go below
    a float [mc * 2^ec] that is below it: either the float is a multiple
    of the new unit, or it lies in a lower binade. *)
Lemma shr_fexp_lower M E mc ec :
  canonical mc ec ->
  (F2R (Zpos mc) ec <= F2R (Zpos M) E)%R ->
  (F2R (Zpos mc) ec <=
   F2R (shr_m (fst (shr_fexp prec emax (Zpos M) E loc_Exact)))
       (snd (shr_fexp prec emax (Zpos M) E loc_Exact)))%R.
Proof.
  intros Hc H. unfold shr_fexp, shr. cbn [shr_record_of_loc Zdigits2].
  set (k := fexp prec emax (Z.pos (digits2_pos M) + E)).
  destruct (k - E) as [|p|p] eqn:Hn; cbn [fst snd shr_m]; try exact H.
  rewrite shr_m_iter by (cbn; lia). cbn [shr_m].
  assert (Hk : E + Z.pos p = k) by lia. rewrite Hk.
  pose proof (digits_bounds M) as [DM1 DM2].
  pose proof (digits_bounds mc) as [Dc1 Dc2].
  assert (P2 : 0 < 2 ^ Z.pos p) by (apply Z.pow_pos_nonneg; lia).
  destruct (Z_le_gt_dec k ec) as [Hge|Hlt].
  - (* the bound is a multiple of the new unit *)
    assert (Hz : Z.pos mc * 2 ^ (ec - E) <= Z.pos M).
    { apply (F2R_le_inv _ _ E). rewrite F2R_shift by lia.
      replace (E + (ec - E)) with ec by lia. exact H. }
    replace (ec - E) with ((ec - k) + Z.pos p) in Hz by lia.
    rewrite Z.pow_add_r in Hz by lia.
    assert (Hq : Z.pos mc * 2 ^ (ec - k) <= Z.pos M / 2 ^ Z.pos p).
    { apply Z.div_le_lower_bound; lia. }
    replace ec with (k + (ec - k)) at 1 by lia.
    rewrite <- F2R_shift by lia. apply F2R_le. exact Hq.
  - (* the bound lies below the binade of the value *)
    assert (Hkd : k = Z.pos (digits2_pos M) + E - 53) by (subst k; unfold_fexp; lia).
    assert (Hd : Z.pos (digits2_pos mc) <= 53) by (unfold_fexp; lia).
    assert (Hq : 2 ^ 52 <= Z.pos M / 2 ^ Z.pos p).
    { apply Z.div_le_lower_bound; [lia|].
      replace (Z.pos (digits2_pos M) - 1) with (Z.pos p + 52) in DM1 by lia.
      rewrite Z.pow_add_r in DM1 by lia. lia. }
    assert (Hm : Z.pos mc <= 2 ^ 53).
    { pose proof (Z.pow_le_mono_r 2 (Z.pos (digits2_pos mc)) 53 ltac:(lia) Hd). lia. }
    apply Rle_trans with (F2R (2 ^ 53) ec); [apply F2R_le; exact Hm|].
    apply Rle_trans with (F2R (2 ^ 52) k); [|apply F2R_le; exact Hq].
    rewrite <- (Z.mul_1_l (2 ^ 53)), <- (Z.mul_1_l (2 ^ 52)), !F2R_shift, !F2R_one by lia.
    apply bpow_le. lia.
Qed.

(** Truncation keeps a mantissa that is not negative so. *)
Lemma shr_fexp_nonneg M E :
  0 <= M -> 0 <= shr_m (fst (shr_fexp prec emax M E loc_Exact)).
Proof.
  intros H. unfold shr_fexp, shr. cbn [shr_record_of_loc].
  destruct (fexp prec emax (Zdigits2 M + E) - E) as [|p|p]; cbn [fst shr_m]; try exact H.
  rewrite shr_m_iter by (cbn; lia). cbn [shr_m]. apply Z.div_pos; [lia|].
  apply Z.pow_pos_nonneg; lia.
Qed.

(** Rounding a value that is not negative gives [+0], a positive float or [+inf]. *)
Lemma binary_round_aux_nonneg M E :
  0 <= M -> sf_nonneg (binary_round_aux prec emax false M E loc_Exact).
Proof.
  intros H. unfold binary_round_aux.
  pose proof (shr_fexp_nonneg M E H) as H1.
  destruct (shr_fexp prec emax M E loc_Exact) as [mrs' e'] eqn:E1. cbn [fst] in H1.
  pose proof (round_nearest_even_bounds (shr_m mrs') (loc_of_shr_record mrs')) as B.
  set (m1 := round_nearest_even (shr_m mrs') (loc_of_shr_record mrs')) in *.
  pose proof (shr_fexp_nonneg m1 e' ltac:(lia)) as H2.
  destruct (shr_fexp prec emax m1 e' loc_Exact) as [mrs'' e''] eqn:E2. cbn [fst] in H2.
  destruct (shr_m mrs'') as [|m|m]; [left; reflexivity| |lia].
  destruct (e'' <=? emax - prec); right; [right; eauto|left; reflexivity].
Qed.

(** Rounding to nearest is above every float below the exact value:
    the result of [binary_round_aux] on [M * 2^E] is [+inf] or at least
    [mc * 2^ec], when the latter is canonical and at most [M * 2^E]. *)
Lemma binary_round_aux_lower M E mc ec :
  canonical mc ec ->
  (F2R (Zpos mc) ec <= F2R (Zpos M) E)%R ->
  sf_ge (binary_round_aux prec emax false (Zpos M) E loc_Exact) (F2R (Zpos mc) ec).
Proof.
  intros Hc H. unfold binary_round_aux.
  pose proof (shr_fexp_lower M E mc ec Hc H) as H1.
  destruct (shr_fexp prec emax (Zpos M) E loc_Exact) as [mrs' e'] eqn:E1.
  cbn [fst snd] in H1.
  pose proof (round_nearest_even_bounds (shr_m mrs') (loc_of_shr_record mrs')) as B.
  set (m1 := round_nearest_even (shr_m mrs') (loc_of_shr_record mrs')) in *.
  pose proof (F2R_pos (Zpos mc) ec ltac:(lia)) as Pc.
  assert (P1 : 0 < shr_m mrs') by (apply (F2R_pos_inv _ e'); lra).
  assert (H1' : (F2R (Zpos mc) ec <= F2R m1 e')%R).
  { apply Rle_trans with (1 := H1). apply F2R_le. lia. }
  destruct m1 as [|M1|M1] eqn:Em1; try lia.
  pose proof (shr_fexp_lower M1 e' mc ec Hc H1') as H2.
  destruct (shr_fexp prec emax (Zpos M1) e' loc_Exact) as [mrs'' e''] eqn:E2.
  cbn [fst snd] in H2.
  assert (P2 : 0 < shr_m mrs'') by (apply (F2R_pos_inv _ e''); lra).
  destruct (shr_m mrs'') as [|m|m]; try lia.
  destruct (e'' <=? emax - prec); [right; eauto|left; reflexivity].
Qed.

(** Aligning a mantissa to a smaller exponent keeps the value. *)
Lemma shl_align_value mx ex ex' :
  F2R (Zpos (fst (shl_align mx ex ex'))) (snd (shl_align mx ex ex')) = F2R (Zpos mx) ex.
Proof.
  unfold shl_align. destruct (ex' - ex) as [|d|d] eqn:Hd; cbn [fst snd]; try reflexivity.
  change (Pos.iter xO mx d) with (shift_pos d mx).
  rewrite shift_pos_correct, Z.pow_pos_fold, Z.mul_comm, F2R_shift by lia.
  f_equal. lia.
Qed.

Lemma shl_align_snd mx ex ex' : ex' <= ex -> snd (shl_align mx ex ex') = ex'.
Proof.
  intros H. unfold shl_align. destruct (ex' - ex) as [|d|d] eqn:Hd; cbn [snd]; lia.
Qed.

(** The same for [binary_round], which aligns first. *)
Lemma binary_round_lower M E mc ec :
  canonical mc ec ->
  (F2R (Zpos mc) ec <= F2R (Zpos M) E)%R ->
  sf_ge (binary_round prec emax false M E) (F2R (Zpos mc) ec).
Proof.
  intros Hc H. unfold binary_round.
  pose proof (shl_align_value M E (fexp prec emax (Z.pos (digits2_pos M) + E))) as V.
  destruct (shl_align M E _) as [mz ez]. cbn [fst snd] in V.
  apply binary_round_aux_lower; [exact Hc|]. rewrite V. exact H.
Qed.

(** *** Products and sums *)

(** A product of floats that are at least [a] and [b] is at least every
    float below [a * b]. *)
Lemma SFmul_ge x y a b mc ec :
  sf_ge x a -> sf_ge y b -> (0 <= a)%R -> (0 <= b)%R ->
  canonical mc ec -> (F2R (Zpos mc) ec <= a * b)%R ->
  sf_ge (SFmul prec emax x y) (F2R (Zpos mc) ec).
Proof.
  intros [->|(mx & ex & -> & Hx)] [->|(my & ey & -> & Hy)] Ha Hb Hc H;
    try (left; reflexivity).
  cbn [SFmul xorb]. apply binary_round_aux_lower; [exact Hc|].
  rewrite Pos2Z.inj_mul, F2R_mul.
  apply Rle_trans with (1 := H). apply Rmult_le_compat; assumption.
Qed.

(** A product of positive floats is never negative nor NaN. *)
Lemma SFmul_nonneg x y :
  sf_ge x 0 -> sf_ge y 0 -> sf_nonneg (SFmul prec emax x y).
Proof.
  intros [->|(mx & ex & -> & Hx)] [->|(my & ey & -> & Hy)];
    try (right; left; reflexivity).
  cbn [SFmul xorb]. apply binary_round_aux_nonneg. lia.
Qed.

Lemma canonical_one : canonical 4503599627370496 (-52).
Proof. reflexivity. Qed.

Lemma F2R_sf_one : F2R 4503599627370496 (-52) = 1%R.
Proof.
  change 4503599627370496 with (1 * 2 ^ 52). rewrite F2R_shift, F2R_one by lia.
  reflexivity.
Qed.

(** Adding a float that is not negative to 1.0 gives at least 1.0. *)
Lemma SFadd_one_ge y :
  sf_nonneg y -> sf_ge (SFadd prec emax sf_one y) 1.
Proof.
  intros [->|[->|(my & ey & ->)]].
  - right. do 2 eexists. split; [reflexivity|]. rewrite F2R_sf_one. lra.
  - left. reflexivity.
  - unfold sf_one. cbn [SFadd cond_Zopp].
    set (ez := Z.min (-52) ey).
    pose proof (shl_align_value 4503599627370496 (-52) ez) as V1.
    pose proof (shl_align_snd 4503599627370496 (-52) ez ltac:(lia)) as S1.
    rewrite S1 in V1.
    destruct (shl_align 4503599627370496 (-52) ez) as [m1 e1].
    destruct (shl_align my ey ez) as [m2 e2]. cbn [fst] in *.
    change (Z.pos m1 + Z.pos m2) with (Z.pos (m1 + m2)). cbn [binary_normalize].
    rewrite <- F2R_sf_one. apply binary_round_lower; [exact canonical_one|].
    rewrite <- V1. apply F2R_le. lia.
Qed.

Lemma sf_ge_weaken x a b : sf_ge x a -> (b <= a)%R -> sf_ge x b.
Proof.
  intros [->|(m & e & -> & H)] Hab; [left; reflexivity|].
  right. exists m, e. split; [reflexivity|lra].
Qed.

(** *** Checking a bound on a float by evaluation *)

Lemma F2R_int n : F2R n 0 = IZR n.
Proof. unfold F2R. change (bpow 0) with 1%R. ring. Qed.

(** The evaluated check is sound. *)
Lemma sf_geb_sound x n d :
  0 < d -> sf_geb x n d = true -> sf_ge x (IZR n / IZR d).
Proof.
  intros Hd. destruct x as [s|[|]| |[|] m e]; cbn [sf_geb]; try discriminate.
  - intros _. left. reflexivity.
  - intros H. right. exists m, e. split; [reflexivity|].
    assert (Dp : (0 < IZR d)%R) by (apply IZR_lt; exact Hd).
    apply Rle_trans with (IZR n * / IZR d)%R; [right; reflexivity|].
    apply (Rmult_le_reg_r (IZR d)); [exact Dp|].
    rewrite Rmult_assoc, Rinv_l, Rmult_1_r by lra.
    destruct (0 <=? e) eqn:E.
    + apply Z.leb_le in H. apply IZR_le in H.
      rewrite mult_IZR in H. 
      replace (F2R (Z.pos m) e) with (IZR (Z.pos m * 2 ^ e)); [exact H|].
      rewrite <- F2R_int, F2R_shift by lia. reflexivity.
    + apply Z.leb_le in H. apply IZR_le in H. rewrite !mult_IZR in H.
      assert (P : (0 < bpow e)%R) by apply bpow_pos.
      assert (Q : (bpow e * IZR (2 ^ (- e)) = 1)%R).
      { rewrite <- bpow_Z, <- bpow_add by lia. replace (e + - e) with 0 by lia. reflexivity. }
      unfold F2R.
      apply (Rmult_le_reg_r (IZR (2 ^ (- e)))).
      { apply IZR_lt. apply Z.pow_pos_nonneg; lia. }
      replace (IZR (Z.pos m) * bpow e * IZR d * IZR (2 ^ (- e)))%R
        with (IZR (Z.pos m) * IZR d * (bpow e * IZR (2 ^ (- e))))%R by ring.
      rewrite Q. lra.
Qed.

(** A float of value at least [c] is above the integers below [c]. *)
Lemma sf_ge_lt_int x c L :
  sf_ge (Prim2SF x) (IZR c) -> L < c -> lt (NInt L) (NFloat x) = true.
Proof.
  intros H HL. unfold lt, num_cmp, float_cmp_int.
  destruct H as [->|(m & e & -> & H)]; [reflexivity|]. cbn [option_map].
  destruct (0 <=? e) eqn:E.
  - assert (c <= Z.pos m * 2 ^ e).
    { apply (F2R_le_inv _ _ 0). rewrite F2R_int, F2R_shift by lia. exact H. }
    destruct (Z.compare_spec (Z.pos m * 2 ^ e) L); try lia. reflexivity.
  - assert (c * 2 ^ (- e) <= Z.pos m).
    { apply (F2R_le_inv _ _ e). rewrite F2R_shift by lia.
      replace (e + - e) with 0 by lia. rewrite F2R_int. exact H. }
    assert (0 < 2 ^ (- e)) by (apply Z.pow_pos_nonneg; lia).
    destruct (Z.compare_spec (Z.pos m) (L * 2 ^ (- e))); try nia. reflexivity.
Qed.

(** A float above 0 is [+inf] or positive and finite. *)
Lemma positive_sf_ge x : lt (NInt 0) (NFloat x) = true -> sf_ge (Prim2SF x) 0.
Proof.
  unfold lt, num_cmp, float_cmp_int.
  destruct (Prim2SF x) as [s|[|]| |s m e]; cbn [option_map CompOpp]; try discriminate.
  - intros _. left. reflexivity.
  - intros H. right. exists m, e.
    assert (s = false) as ->.
    { destruct s; [exfalso|reflexivity]. destruct (0 <=? e) eqn:E.
      - assert (0 < 2 ^ e) by (apply Z.pow_pos_nonneg; lia).
        destruct (Z.compare_spec (Z.neg m * 2 ^ e) 0); cbn in H; try discriminate; nia.
      - rewrite Z.mul_0_l in H. discriminate. }
    split; [reflexivity|]. left. apply F2R_pos. lia.
Qed.

(** *** The power before it is limited *)

(** Every transfer factor the tables give is above 0 and at least 1/8. *)
Lemma transfer_factor_ok built r v tf :
  calculate_transfer_factor (init built) r v = Ok tf -> tf_ok tf = true.
Proof.
  pose (P := fun p : (float * float) * list spec =>
    tf_ok (transferAvg (fst p)) = true /\
    Forall (fun sp => forall t tv,
      sp !! "transfer" = Some (VStr t) ->
      float_of_string (leading_token t) = Ok tv ->
      tf_ok (transferAvg (fst p) * (tv / 3.0))%float = true) (snd p)).
  assert (R : forall r, P (row (init built) r)).
  { apply row_cases; subst P; destruct built; cbn [fst snd];
      (split; [vm_compute; reflexivity|]);
      repeat (constructor;
              [intros t tv [= <-] Hp; vm_compute in Hp; injection Hp as <-;
               vm_compute; reflexivity|]);
      constructor. }
  subst P. cbn beta in R.
  pose proof (transfer_factor_cases built r v) as C. cbn zeta in C.
  destruct (R r) as [R1 R2]. cbn [row fst snd] in R1, R2.
  intros H. unfold get_volume_specs in C.
  destruct (find_spec v _) as [sp|] eqn:E.
  - destruct C as (t & tv & Ht & Hp & C). rewrite C in H. injection H as <-.
    apply find_spec_Some in E as [Hin _].
    rewrite List.Forall_forall in R2. exact (R2 sp Hin t tv Ht Hp).
  - rewrite C in H. injection H as <-. exact R1.
Qed.

(** The base power [40 * substrate_factor * ink_factor] is at least 36
    on all the factors of the tables. *)
Lemma base_ok s i :
  sf_geb (Prim2SF (40 * substrateFactor s * inkFactor i)%float) 36 1 = true /\
  le (NInt 1) (NFloat (substrateFactor s)) = true /\
  (0.9 <=? inkFactor i)%float = true.
Proof.
  unfold substrateFactor, inkFactor.
  repeat case_bool_decide; vm_compute; repeat split; reflexivity.
Qed.

(** The floats 36.0 and 40.0. *)
Lemma canonical_36 : canonical 5066549580791808 (-47).
Proof. reflexivity. Qed.

Lemma canonical_40 : canonical 5629499534213120 (-47).
Proof. reflexivity. Qed.

Lemma F2R_36 : F2R 5066549580791808 (-47) = 36%R.
Proof.
  change 5066549580791808 with (36 * 2 ^ 47). rewrite F2R_shift by lia.
  apply F2R_int.
Qed.

Lemma F2R_40 : F2R 5629499534213120 (-47) = 40%R.
Proof.
  change 5629499534213120 with (40 * 2 ^ 47). rewrite F2R_shift by lia.
  apply F2R_int.
Qed.

(** With a bcm above 0 the power before the limits is at least 40. *)
Lemma power_ge_40 s i bcm tf :
  lt (NInt 0) (NFloat bcm) = true -> tf_ok tf = true ->
  sf_ge (Prim2SF (power s i bcm tf)) 40.
Proof.
  intros Hb Ht. unfold power.
  apply andb_true_iff in Ht as [Ht _].
  apply (sf_geb_sound _ 9 8 ltac:(lia)) in Ht.
  destruct (base_ok s i) as [HB _].
  apply (sf_geb_sound _ 36 1 ltac:(lia)) in HB.
  assert (HG : sf_ge (Prim2SF (1 + bcm * 0.1)%float) 1).
  { rewrite add_spec, mul_spec. apply SFadd_one_ge. apply SFmul_nonneg.
    - apply positive_sf_ge. exact Hb.
    - apply (sf_ge_weaken _ (IZR 0 / IZR 1)); [|lra].
      apply sf_geb_sound; [lia|]. vm_compute. reflexivity. }
  rewrite mul_spec, mul_spec. rewrite <- F2R_40.
  apply (SFmul_ge _ _ 36 (9 / 8)); try lra; [|exact Ht|exact canonical_40|rewrite F2R_40; lra].
  rewrite <- F2R_36.
  apply (SFmul_ge _ _ (36 / 1) 1); try lra; [exact HB|exact HG|exact canonical_36|rewrite F2R_36; lra].
Qed.

(** ** The claims *)

(** C1: for every substrate, ink type, roller type, volume label and
    bcm, [bereken_uv_vermogen] returns the result of the formula: the
    power [40 * substrateFactor * inkFactor * (1 + bcm * 0.1)], times
    [1 + transferFactor], clamped to [[20, 100]] and rounded to one
    decimal, with the contributions computed from the same factors and
    the transfer value of [get_transfer_from_volume]. *)
Theorem bereken_uv_vermogen_formula built substrate inkType bcm rollerType volumeLabel :
  exists transferFactor transferValue c,
    calculate_transfer_factor (init built) rollerType volumeLabel = Ok transferFactor /\
    get_transfer_from_volume (init built) rollerType volumeLabel = Ok transferValue /\
    clamped (power substrate inkType bcm transferFactor) 20 100 c /\
    bereken_uv_vermogen (init built) substrate inkType bcm rollerType volumeLabel =
    Ok {|
      base_power := 40;
      substrate_contribution := ((substrateFactor substrate - 1) * 100)%float;
      ink_contribution := ((inkFactor inkType - 1) * 100)%float;
      bcm_contribution := (bcm * 0.1 * 100)%float;
      transfer_factor := (transferFactor * 100)%float;
      transfer_value := transferValue;
      final_power := round1 c
    |}.
Proof.
  destruct (bereken_uv_vermogen_eq built substrate inkType bcm rollerType volumeLabel)
    as (tf & tv & H1 & H2 & H3).
  exists tf, tv, (limit (power substrate inkType bcm tf)).
  repeat split; try assumption; apply limit_clamped.
Qed.

(** C3: [calculate_transfer_factor] returns
    [transferAvg * (transferValue / 3.0)] when a specification with the
    volume label exists for the roller type, [transferValue] being the
    number read from the leading token of its transfer string, and
    [transferAvg] when none exists; [transferAvg] is the midpoint of the
    transfer range of the roller type, [(0.25, 0.30)] by default. *)
Theorem calculate_transfer_factor_spec built r v :
  let self := init built in
  let avg := transferAvg (get (transfer_ranges self) r (0.25, 0.30)%float) in
  match find_spec v (get_volume_specs self r) with
  | Some sp =>
      exists t tv,
        sp !! "transfer" = Some (VStr t) /\
        float_of_string (leading_token t) = Ok tv /\
        calculate_transfer_factor self r v = Ok (avg * (tv / 3.0))%float
  | None => calculate_transfer_factor self r v = Ok avg
  end.
Proof. exact (transfer_factor_cases built r v). Qed.

(** C4: the worked example. For the hexagonal roller and the volume
    10 cm³/m² the bcm is 6.4, the transfer string is 2.5 g/m², the
    transfer factor is [0.25 * (2.5 / 3.0)], and with coated paper and UV
    ink the final power is 79.3, which is also what rounding
    [40*1*1*1.64*(1+0.25*2.5/3.0)] to one decimal gives. *)
Theorem worked_example built :
  let self := init built in
  get_bcm_from_volume self "Hexagonal (20-30% transfer)" "10 cm³/m²" = Ok (VFloat 6.4) /\
  get_transfer_from_volume self "Hexagonal (20-30% transfer)" "10 cm³/m²"
    = Ok (VStr "2.5 g/m²") /\
  calculate_transfer_factor self "Hexagonal (20-30% transfer)" "10 cm³/m²"
    = Ok (0.25 * (2.5 / 3.0))%float /\
  (exists res,
     bereken_uv_vermogen self "Gecoat papier" "UV-inkt" 6.4
       "Hexagonal (20-30% transfer)" "10 cm³/m²" = Ok res /\
     final_power res = NFloat 79.3) /\
  round1 (NFloat (40 * 1 * 1 * 1.64 * (1 + 0.25 * 2.5 / 3.0))) = NFloat 79.3.
Proof.
  destruct built; cbn zeta; repeat split;
    try (eexists; split); vm_compute; reflexivity.
Qed.

(** C5: the lookups degrade to defaults and never raise. An unrecognized
    roller type has no specifications; when no specification of the
    roller type has the volume label, the bcm is 0.0 and the transfer is
    0.0 g/m²; and on every input the lookups,
    [calculate_transfer_factor] and [bereken_uv_vermogen] return a
    value. *)
Theorem lookups_never_raise built r v :
  let self := init built in
  (r <> hexagonal -> r <> hachure -> r <> art_tif -> r <> gtt ->
   get_volume_specs self r = []) /\
  ((forall sp, In sp (get_volume_specs self r) -> sp !! "volume" <> Some (VStr v)) ->
   get_bcm_from_volume self r v = Ok (VFloat 0.0) /\
   get_transfer_from_volume self r v = Ok (VStr "0.0 g/m²")) /\
  (exists f, get_bcm_from_volume self r v = Ok (VFloat f)) /\
  (exists t, get_transfer_from_volume self r v = Ok (VStr t)) /\
  (exists tf, calculate_transfer_factor self r v = Ok tf) /\
  (forall substraat inktsoort bcm,
     exists res, bereken_uv_vermogen self substraat inktsoort bcm r v = Ok res).
Proof.
  cbn zeta. split; [|split; [|split; [|split; [|split]]]].
  - intros N1 N2 N3 N4.
    unfold get_volume_specs, get, init, dict;
      cbn [transfer_ranges volume_specs list_to_map foldr uncurry fst snd].
    rewrite !lookup_insert_ne, !lookup_empty by congruence. reflexivity.
  - intros H. apply find_spec_None in H.
    unfold get_bcm_from_volume, get_transfer_from_volume.
    rewrite !(for_return_find v _ _ _ (row_labelled built r)).
    unfold get_volume_specs in H. rewrite H. split; reflexivity.
  - apply get_bcm_total.
  - apply get_transfer_total.
  - apply calculate_transfer_factor_total.
  - intros s i bcm.
    destruct (bereken_uv_vermogen_eq built s i bcm r v) as (tf & tv & _ & _ & H).
    eexists. exact H.
Qed.

Lemma lookups_never_raise_witness :
  get_volume_specs (init true) "Laser" = [] /\
  get_bcm_from_volume (init true) "Laser" "7 cm³/m²" = Ok (VFloat 0.0) /\
  get_transfer_from_volume (init true) "Laser" "7 cm³/m²" = Ok (VStr "0.0 g/m²").
Proof.
  destruct (lookups_never_raise true "Laser" "7 cm³/m²") as (H1 & H2 & _).
  split.
  - apply H1; discriminate.
  - apply H2. intros sp. rewrite H1 by discriminate. intros [].
Defined.

(** C6: [validate_bcm] accepts exactly the floats whose value lies in
    (0, 20]; 0 and 20.01 are rejected, 20 and 0.01 are accepted. *)
Theorem validate_bcm_spec :
  (forall bcm,
     validate_bcm bcm = true <->
     exists q, float_value bcm = Some q /\ (0 < q)%Q /\ (q <= 20)%Q) /\
  validate_bcm 0 = false /\ validate_bcm 20.01 = false /\
  validate_bcm 20 = true /\ validate_bcm 0.01 = true.
Proof.
  split; [|vm_compute; repeat split; reflexivity].
  intros bcm. unfold validate_bcm, lt, le, num_cmp, float_cmp_int, float_value.
  destruct (Prim2SF bcm) as [s|[|]| |s m e]; cbn [option_map CompOpp andb].
  - split; [discriminate|]. intros (q & [= <-] & H & _). inversion H.
  - split; [discriminate|]. intros (q & [=] & _).
  - split; [discriminate|]. intros (q & [=] & _).
  - split; [discriminate|]. intros (q & [=] & _).
  - set (z := if s then Z.neg m else Z.pos m).
    destruct (0 <=? e) eqn:E.
    + split.
      * intros H. eexists. split; [reflexivity|].
        apply andb_true_iff in H as [H1 H2].
        destruct (Z.compare_spec (z * 2 ^ e) 0); try discriminate.
        destruct (Z.compare_spec (z * 2 ^ e) 20); try discriminate;
          unfold Qlt, Qle; cbn; lia.
      * intros (q & [= <-] & H1 & H2). unfold Qlt, Qle in *. cbn in H1, H2.
        destruct (Z.compare_spec (z * 2 ^ e) 0); try lia.
        destruct (Z.compare_spec (z * 2 ^ e) 20); try lia; reflexivity.
    + rewrite ?Z.mul_0_l.
      assert (HD : Z.pos (Z.to_pos (2 ^ (- e))) = 2 ^ (- e)).
      { apply Z2Pos.id. apply Z.pow_pos_nonneg; lia. }
      split.
      * intros H. eexists. split; [reflexivity|].
        apply andb_true_iff in H as [H1 H2].
        destruct (Z.compare_spec z 0); try discriminate.
        destruct (Z.compare_spec z (20 * 2 ^ (- e))); try discriminate;
          unfold Qlt, Qle; cbn [Qnum Qden]; rewrite HD; lia.
      * intros (q & [= <-] & H1 & H2). unfold Qlt, Qle in *. cbn [Qnum Qden] in H1, H2.
        rewrite HD in H2.
        destruct (Z.compare_spec z 0); try lia.
        destruct (Z.compare_spec z (20 * 2 ^ (- e))); try lia; reflexivity.
Qed.


Lemma load_dump_units l : load_units (dump_units l) = Some l.
Proof.
  unfold load_units, dump_units. rewrite list_ascii_of_string_of_list_ascii.
  f_equal. induction l as [|[] l IH]; [reflexivity|]. cbn. f_equal. exact IH.
Qed.

(** C8: in the list of specifications of every roller type the volume
    labels are pairwise distinct and the bcm values increase strictly in
    the order of the list. *)
Theorem volume_specs_invariant built r :
  let specs := get_volume_specs (init built) r in
  Forall (fun sp => exists l, sp !! "volume" = Some (VStr l)) specs /\
  NoDup (List.map label_of specs) /\
  StronglySorted bcm_lt specs.
Proof.
  apply (row_cases built (fun p =>
     Forall (fun sp => exists l, sp !! "volume" = Some (VStr l)) (snd p) /\
     NoDup (List.map label_of (snd p)) /\ StronglySorted bcm_lt (snd p)));
    destruct built; cbn [snd]; (split; [|split]);
    lazymatch goal with
    | |- Forall _ _ => repeat (constructor; [eexists; reflexivity|]); constructor
    | |- NoDup _ => apply (bool_decide_unpack _); vm_compute; exact I
    | |- StronglySorted _ _ =>
        repeat (apply SSorted_cons;
                [| repeat (constructor;
                           [do 2 eexists; repeat split; vm_compute; reflexivity|]);
                   constructor]);
        apply SSorted_nil
    end.
Qed.

(** The result depends on the instance through its two tables only. *)
Lemma bereken_uv_vermogen_tables self1 self2 s i bcm r v :
  transfer_ranges self1 = transfer_ranges self2 ->
  volume_specs self1 = volume_specs self2 ->
  bereken_uv_vermogen self1 s i bcm r v = bereken_uv_vermogen self2 s i bcm r v.
Proof.
  intros H1 H2.
  unfold bereken_uv_vermogen, calculate_transfer_factor, get_transfer_from_volume.
  rewrite H1, H2. reflexivity.
Qed.

(** C2: for every substrate, ink type, roller type and volume label, and
    every bcm that [validate_bcm] accepts (0 < bcm <= 20), the final
    power that [bereken_uv_vermogen] returns lies in [[20, 100]]. *)
Theorem final_power_in_range built substraat inktsoort rasterwals_type selected_volume bcm :
  validate_bcm bcm = true ->
  exists res,
    bereken_uv_vermogen (init built) substraat inktsoort bcm
      rasterwals_type selected_volume = Ok res /\
    le (NInt 20) (final_power res) = true /\
    le (final_power res) (NInt 100) = true.
Proof.
  intros _.
  destruct (bereken_uv_vermogen_eq built substraat inktsoort bcm
              rasterwals_type selected_volume) as (tf & tv & _ & _ & H).
  eexists. split; [exact H|]. cbn [final_power].
  apply round1_limit_bounds; [lia|left; reflexivity].
Qed.

Lemma final_power_in_range_witness :
  exists res,
    bereken_uv_vermogen (init true) "Folie" "UV-inkt" 12.9
      art_tif "20 cm³/m²" = Ok res /\
    le (NInt 20) (final_power res) = true /\
    le (final_power res) (NInt 100) = true.
Proof.
  apply (final_power_in_range true "Folie" "UV-inkt" art_tif "20 cm³/m²" 12.9).
  vm_compute. reflexivity.
Defined.

(** C10: with a bcm above 0 the power before the limits is above 36,
    for every substrate, ink type, roller type and volume label: the
    substrate factor is at least 1, the ink factor at least 0.9 and the
    transfer factor above 0. The lower limit 20 then has no effect, and
    the final power is at least 36. *)
Theorem power_above_36 built substraat inktsoort bcm rasterwals_type selected_volume :
  lt (NInt 0) (NFloat bcm) = true ->
  exists tf res,
    calculate_transfer_factor (init built) rasterwals_type selected_volume = Ok tf /\
    bereken_uv_vermogen (init built) substraat inktsoort bcm
      rasterwals_type selected_volume = Ok res /\
    let substrate_factor := get substraat_table substraat 1.0%float in
    let ink_factor := get inktsoort_table inktsoort 1.0%float in
    let raw := uv_vermogen_raw substrate_factor ink_factor (bcm * 0.1) tf in
    le (NInt 1) (NFloat substrate_factor) = true /\
    (0.9 <=? ink_factor)%float = true /\
    lt (NInt 0) (NFloat tf) = true /\
    lt (NInt 36) (NFloat raw) = true /\
    limit raw = Py.min (NFloat raw) (NInt 100) /\
    final_power res = round1 (limit raw) /\
    le (NInt 36) (final_power res) = true.
Proof.
  intros Hb.
  destruct (bereken_uv_vermogen_eq built substraat inktsoort bcm
              rasterwals_type selected_volume) as (tf & tv & Htf & _ & H).
  exists tf. eexists. split; [exact Htf|]. split; [exact H|].
  cbn zeta. rewrite substraat_get, inktsoort_get. cbn [final_power].
  change (uv_vermogen_raw (substrateFactor substraat) (inkFactor inktsoort) (bcm * 0.1) tf)
    with (power substraat inktsoort bcm tf).
  pose proof (transfer_factor_ok built _ _ _ Htf) as Ht.
  pose proof (power_ge_40 substraat inktsoort bcm tf Hb Ht) as H40.
  pose proof (sf_ge_lt_int _ 40 36 H40 ltac:(lia)) as H36.
  destruct (base_ok substraat inktsoort) as (_ & Hs & Hi).
  apply andb_true_iff in Ht as [_ Ht].
  repeat split; try assumption.
  - unfold limit, Py.max, gt. 
    assert (lt (NInt 20) (Py.min (NFloat (power substraat inktsoort bcm tf)) (NInt 100)) = true) as ->;
      [|reflexivity].
    unfold Py.min. destruct (lt (NInt 100) _); [reflexivity|].
    apply (lt_int_mono _ 20 36); [lia|exact H36].
  - apply round1_limit_bounds; [lia|right; exact H36].
Qed.

Lemma power_above_36_witness :
  exists tf res,
    calculate_transfer_factor (init true) "" "" = Ok tf /\
    bereken_uv_vermogen (init true) "" "LED-UV inkt" 5e-324 "" "" = Ok res /\
    lt (NInt 36) (NFloat (uv_vermogen_raw (get substraat_table "" 1.0%float)
                            (get inktsoort_table "LED-UV inkt" 1.0%float)
                            (5e-324 * 0.1) tf)) = true /\
    le (NInt 36) (final_power res) = true.
Proof.
  destruct (power_above_36 true "" "LED-UV inkt" 5e-324 "" "") as (tf & res & H).
  - vm_compute. reflexivity.
  - exists tf, res. cbn zeta in H. tauto.
Defined.

(** ** Further properties of the lookups and of the form *)

Lemma row_nodup built r :
  NoDup (List.map label_of (get_volume_specs (init built) r)).
Proof.
  apply (row_cases built (fun p => NoDup (List.map label_of (snd p))));
    destruct built; cbn [snd]; apply (bool_decide_unpack _); vm_compute; exact I.
Qed.

(** In a list without repeated labels a specification is the first one
    with its label. *)
Lemma find_spec_unique specs sp l :
  NoDup (List.map label_of specs) -> In sp specs -> label_of sp = Some l ->
  find_spec l specs = Some sp.
Proof.
  induction specs as [|a specs IH]; intros N Hin Hl; [destruct Hin|].
  cbn [List.map] in N. inversion N as [|? ? Hna N']; subst.
  cbn [find_spec List.find]. destruct Hin as [->|Hin].
  - rewrite Hl, bool_decide_eq_true_2 by reflexivity. reflexivity.
  - rewrite bool_decide_eq_false_2.
    + apply IH; assumption.
    + intros E. apply Hna. rewrite E, <- Hl. apply list_elem_of_In, in_map. exact Hin.
Qed.

Lemma find_spec_labels v specs :
  In v (labels_of specs) <-> is_Some (find_spec v specs).
Proof.
  unfold labels_of. rewrite <- list_elem_of_In, list_elem_of_omap. split.
  - intros (sp & Hin & Hl). apply list_elem_of_In in Hin.
    destruct (find_spec v specs) as [sp'|] eqn:E; [eexists; reflexivity|].
    exfalso. eapply List.find_none in E; [|exact Hin]. cbn in E.
    rewrite bool_decide_eq_true_2 in E by exact Hl. discriminate.
  - intros [sp E]. apply find_spec_Some in E as [Hin Hl].
    exists sp. split; [apply list_elem_of_In; exact Hin|exact Hl].
Qed.

(** A specification of the tables is the one found by its label. *)
Lemma lookup_by_label built r sp l :
  In sp (get_volume_specs (init built) r) -> label_of sp = Some l ->
  exists f t,
    sp !! "bcm" = Some (VFloat f) /\ sp !! "transfer" = Some (VStr t) /\
    get_bcm_from_volume (init built) r l = Ok (VFloat f) /\
    get_transfer_from_volume (init built) r l = Ok (VStr t) /\
    App.spec_info (init built) r l = Ok (Some sp).
Proof.
  intros Hin Hl.
  pose proof (find_spec_unique _ sp l (row_nodup built r) Hin Hl) as F.
  destruct (spec_ok_in built r sp Hin) as [_ _ [f Hf] (t & tv & Ht & _)].
  exists f, t. split; [exact Hf|]. split; [exact Ht|].
  unfold get_bcm_from_volume, get_transfer_from_volume, App.spec_info.
  rewrite !(for_return_find l _ _ _ (row_labelled built r)).
  unfold get_volume_specs in *.
  rewrite (next_or_none_find l _ (row_labelled built r)), F.
  unfold getitem. rewrite Hf, Ht. repeat split; reflexivity.
Qed.


(** X1: every specification of a roller type is retrieved by its own
    volume label: [get_bcm_from_volume] and [get_transfer_from_volume]
    return its bcm and its transfer string, and the info box of the form
    shows that specification. *)
Theorem lookup_round_trip built r sp l :
  In sp (get_volume_specs (init built) r) -> label_of sp = Some l ->
  exists f t,
    sp !! "bcm" = Some (VFloat f) /\ sp !! "transfer" = Some (VStr t) /\
    get_bcm_from_volume (init built) r l = Ok (VFloat f) /\
    get_transfer_from_volume (init built) r l = Ok (VStr t) /\
    App.spec_info (init built) r l = Ok (Some sp).
Proof. apply lookup_by_label. Qed.

Lemma lookup_round_trip_witness :
  exists f t,
    volume_spec "13 cm³/m²" 8.4 "100 L/cm" "4.3 g/m²" !! "bcm" = Some (VFloat f) /\
    volume_spec "13 cm³/m²" 8.4 "100 L/cm" "4.3 g/m²" !! "transfer" = Some (VStr t) /\
    get_bcm_from_volume (init true) hachure "13 cm³/m²" = Ok (VFloat f) /\
    get_transfer_from_volume (init true) hachure "13 cm³/m²" = Ok (VStr t) /\
    App.spec_info (init true) hachure "13 cm³/m²"
      = Ok (Some (volume_spec "13 cm³/m²" 8.4 "100 L/cm" "4.3 g/m²")).
Proof.
  apply (lookup_round_trip true hachure).
  - right. right. left. reflexivity.
  - reflexivity.
Defined.

(** *** The form *)

Lemma volume_options_labels built r :
  App.volume_options (init built) r
  = Ok (List.map VStr (labels_of (get_volume_specs (init built) r))).
Proof.
  unfold App.volume_options.
  apply (row_cases built (fun p =>
    mapM (fun sp : spec => getitem sp "volume") (snd p)
    = Ok (List.map VStr (labels_of (snd p)))));
    destruct built; reflexivity.
Qed.

Lemma form_checked built r :
  Forall (fun sp => form_ok (fst (row (init built) r)) sp = true)
    (snd (row (init built) r)).
Proof.
  apply (row_cases built (fun p => Forall (fun sp => form_ok (fst p) sp = true) (snd p)));
    destruct built; cbn [fst snd];
    repeat (constructor; [vm_compute; reflexivity|]); constructor.
Qed.

Lemma substrateFactor_in s : In (substrateFactor s) substrate_factors.
Proof.
  unfold substrateFactor, substrate_factors. repeat case_bool_decide; cbn; tauto.
Qed.

Lemma inkFactor_in i : In (inkFactor i) ink_factors.
Proof.
  unfold inkFactor, ink_factors. repeat case_bool_decide; cbn; tauto.
Qed.

(** What pressing the button computes, by the specification found. *)
Lemma calculate_cases built s i r v :
  let self := init built in
  match find_spec v (get_volume_specs self r) with
  | Some sp =>
      exists f res,
        get_bcm_from_volume self r v = Ok (VFloat f) /\
        validate_bcm f = true /\
        bereken_uv_vermogen self s i f r v = Ok res /\
        App.calculate self s i r v = Ok (App.Calculated res) /\
        le (NInt 60) (final_power res) = true /\
        le (final_power res) (NInt 100) = true /\
        sp !! "bcm" = Some (VFloat f) /\
        form_power (get (transfer_ranges self) r (0.25, 0.30)%float) sp
          (substrateFactor s) (inkFactor i) = Some (final_power res)
  | None =>
      get_bcm_from_volume self r v = Ok (VFloat 0.0) /\
      App.calculate self s i r v
      = Ok (App.Rejected "BCM waarde moet tussen 0 en 20 liggen.")
  end.
Proof.
  cbn zeta. unfold App.calculate.
  pose proof (transfer_factor_cases built r v) as C. cbn zeta in C.
  assert (B : get_bcm_from_volume (init built) r v =
              match find_spec v (get_volume_specs (init built) r) with
              | Some sp => getitem sp "bcm" | None => Ok (VFloat 0.0) end).
  { unfold get_bcm_from_volume. apply for_return_find, row_labelled. }
  destruct (find_spec v _) as [sp|] eqn:E.
  - apply find_spec_Some in E as [Hin _].
    pose proof (form_checked built r) as F. rewrite List.Forall_forall in F.
    specialize (F sp Hin). unfold form_ok in F. cbn [row fst] in F.
    destruct C as (t & tv & Ht & Hp & C).
    destruct (spec_ok_in built r sp Hin) as [_ _ [f Hf] _].
    rewrite Hf, Ht, Hp in F. apply andb_true_iff in F as [Fv Fp].
    unfold getitem in B. rewrite Hf in B.
    destruct (bereken_uv_vermogen_eq built s i f r v) as (tf & tv' & Htf & _ & H).
    rewrite C in Htf. injection Htf as <-.
    exists f. eexists. split; [exact B|]. split; [exact Fv|]. split; [exact H|].
    rewrite B. unfold VFloat. cbn [mbind result_bind fst snd].
    rewrite Fv, H. cbn [negb mbind result_bind].
    split; [reflexivity|]. cbn [final_power].
    rewrite forallb_forall in Fp. specialize (Fp _ (substrateFactor_in s)).
    rewrite forallb_forall in Fp. specialize (Fp _ (inkFactor_in i)).
    apply andb_true_iff in Fp. destruct Fp as [Fp1 Fp2].
    split; [exact Fp1|]. split; [exact Fp2|]. split; [exact Hf|].
    unfold form_power. rewrite Hf, Ht, Hp. reflexivity.
  - split; [exact B|]. rewrite B. reflexivity.
Qed.

(** X2: the volumes the form offers for a roller type are the volumes
    the calculation accepts. For an offered volume the bcm found is
    valid and the final power lies between 60 and 100, with every
    substrate and ink; for any other volume the bcm is 0.0 and the
    calculation is rejected with the message about the bcm. *)
Theorem calculate_accepts_the_options built substraat inktsoort rasterwals_type v :
  let self := init built in
  exists options,
    App.volume_options self rasterwals_type = Ok options /\
    (In (VStr v) options ->
     exists f res,
       get_bcm_from_volume self rasterwals_type v = Ok (VFloat f) /\
       validate_bcm f = true /\
       bereken_uv_vermogen self substraat inktsoort f rasterwals_type v = Ok res /\
       App.calculate self substraat inktsoort rasterwals_type v
       = Ok (App.Calculated res) /\
       le (NInt 60) (final_power res) = true /\
       le (final_power res) (NInt 100) = true) /\
    (~ In (VStr v) options ->
     get_bcm_from_volume self rasterwals_type v = Ok (VFloat 0.0) /\
     App.calculate self substraat inktsoort rasterwals_type v
     = Ok (App.Rejected "BCM waarde moet tussen 0 en 20 liggen.")).
Proof.
  cbn zeta. eexists. split; [apply volume_options_labels|].
  pose proof (calculate_cases built substraat inktsoort rasterwals_type v) as C.
  cbn zeta in C.
  assert (L : In (VStr v) (List.map VStr (labels_of (get_volume_specs (init built) rasterwals_type)))
              <-> is_Some (find_spec v (get_volume_specs (init built) rasterwals_type))).
  { rewrite <- find_spec_labels, in_map_iff. split.
    - intros (x & [= ->] & H). exact H.
    - intros H. exists v. split; [reflexivity|exact H]. }
  rewrite L.
  destruct (find_spec v _) as [sp|]; split.
  - intros _. destruct C as (f & res & C). exists f, res. tauto.
  - intros N. exfalso. apply N. eexists. reflexivity.
  - intros [sp E]. discriminate.
  - intros _. exact C.
Qed.

Lemma calculate_accepts_the_options_witness :
  (exists f res,
     get_bcm_from_volume (init true) gtt "XL" = Ok (VFloat f) /\
     validate_bcm f = true /\
     bereken_uv_vermogen (init true) "Karton" "LED-UV inkt" f gtt "XL" = Ok res /\
     App.calculate (init true) "Karton" "LED-UV inkt" gtt "XL"
     = Ok (App.Calculated res) /\
     le (NInt 60) (final_power res) = true /\
     le (final_power res) (NInt 100) = true) /\
  App.calculate (init true) "Karton" "LED-UV inkt" gtt "16 cm³/m²"
  = Ok (App.Rejected "BCM waarde moet tussen 0 en 20 liggen.").
Proof.
  destruct (calculate_accepts_the_options true "Karton" "LED-UV inkt" gtt "XL")
    as (o1 & H1 & H2 & _).
  destruct (calculate_accepts_the_options true "Karton" "LED-UV inkt" gtt "16 cm³/m²")
    as (o2 & H3 & _ & H4).
  vm_compute in H1. injection H1 as <-.
  vm_compute in H3. injection H3 as <-.
  split.
  - apply H2. cbn. tauto.
  - apply H4. cbn. intros H. repeat (destruct H as [H|H]; [discriminate|]). exact H.
Defined.

(** The keys of a dictionary, given as a list. *)
Lemma keys_of_dom {V} (m : gmap string V) (keys : list string) :
  dom m = list_to_set keys -> forall k, In k keys <-> is_Some (m !! k).
Proof.
  intros H k. rewrite <- elem_of_dom, H, elem_of_list_to_set, list_elem_of_In.
  reflexivity.
Qed.

(** X3: the options of the three selection boxes of the form are exactly
    the keys of the tables of the calculation: the roller types are the
    keys of [transfer_ranges] and of [volume_specs], the substrates and
    the ink types the keys of the two tables of [power_factors]. A
    choice made in the form never falls back on a default. *)
Theorem form_options_are_the_keys built :
  (forall k, In k App.rasterwals_options <-> is_Some (transfer_ranges (init built) !! k)) /\
  (forall k, In k App.rasterwals_options <-> is_Some (volume_specs (init built) !! k)) /\
  (exists factors,
     getitem power_factors "substraat" = Ok factors /\
     forall k, In k App.substraat_options <-> is_Some (factors !! k)) /\
  (exists factors,
     getitem power_factors "inktsoort" = Ok factors /\
     forall k, In k App.inktsoort_options <-> is_Some (factors !! k)).
Proof.
  split; [|split; [|split]].
  - apply keys_of_dom. destruct built; apply (bool_decide_unpack _); vm_compute; exact I.
  - apply keys_of_dom. destruct built; apply (bool_decide_unpack _); vm_compute; exact I.
  - eexists. split; [reflexivity|].
    apply keys_of_dom. apply (bool_decide_unpack _). vm_compute. exact I.
  - eexists. split; [reflexivity|].
    apply keys_of_dom. apply (bool_decide_unpack _). vm_compute. exact I.
Qed.

(** A roller type is one of the four of the tables, or has no
    specification. *)
Lemma specs_cases built r :
  r = hexagonal \/ r = hachure \/ r = art_tif \/ r = gtt \/
  get_volume_specs (init built) r = [].
Proof.
  destruct (decide (r = hexagonal)) as [->|N1]; [tauto|].
  destruct (decide (r = hachure)) as [->|N2]; [tauto|].
  destruct (decide (r = art_tif)) as [->|N3]; [tauto|].
  destruct (decide (r = gtt)) as [->|N4]; [tauto|].
  do 4 right.
  unfold get_volume_specs, get, init, dict;
    cbn [transfer_ranges volume_specs list_to_map foldr uncurry fst snd].
  rewrite !lookup_insert_ne, !lookup_empty by congruence. reflexivity.
Qed.

(** X4: a GTT size stands for a hexagonal volume. Every GTT
    specification has an [actual_volume] that differs from its size;
    the info box shows it in place of the size, and it is the volume of
    a hexagonal specification, which has the same bcm and the same
    transfer string and no [actual_volume] of its own. The
    specifications of the other roller types have no [actual_volume],
    and the info box shows their volume label. *)
Theorem gtt_sizes_are_hexagonal_volumes built r sp :
  In sp (get_volume_specs (init built) r) ->
  exists label f t,
    sp !! "volume" = Some (VStr label) /\
    sp !! "bcm" = Some (VFloat f) /\
    sp !! "transfer" = Some (VStr t) /\
    if bool_decide (r = gtt)
    then
      exists shown hex,
        sp !! "actual_volume" = Some (VStr shown) /\
        shown <> label /\
        App.info_volume sp = Ok (VStr shown) /\
        find_spec shown (get_volume_specs (init built) hexagonal) = Some hex /\
        hex !! "volume" = Some (VStr shown) /\
        hex !! "bcm" = Some (VFloat f) /\
        hex !! "transfer" = Some (VStr t) /\
        hex !! "actual_volume" = None /\
        get_bcm_from_volume (init built) hexagonal shown = Ok (VFloat f) /\
        get_transfer_from_volume (init built) hexagonal shown = Ok (VStr t)
    else
      sp !! "actual_volume" = None /\
      App.info_volume sp = Ok (VStr label).
Proof.
  intros Hin.
  destruct (specs_cases built r) as [->|[->|[->|[->|E]]]];
    [| | | |rewrite E in Hin; destruct Hin];
    [rewrite bool_decide_eq_false_2 by discriminate ..
    |rewrite bool_decide_eq_true_2 by reflexivity];
    destruct built; unfold get_volume_specs in Hin;
    repeat (destruct Hin as [<-|Hin];
            [do 3 eexists; repeat split;
             try (do 2 eexists; repeat split);
             first [discriminate | vm_compute; reflexivity]|]);
    destruct Hin.
Qed.

Lemma gtt_sizes_are_hexagonal_volumes_witness :
  exists shown hex,
    gtt_spec "L" 8.4 "GTT" "3.25 g/m²" "13 cm³/m²" !! "actual_volume" = Some (VStr shown) /\
    shown <> "L" /\
    App.info_volume (gtt_spec "L" 8.4 "GTT" "3.25 g/m²" "13 cm³/m²") = Ok (VStr shown) /\
    find_spec shown (get_volume_specs (init true) hexagonal) = Some hex /\
    hex !! "bcm" = Some (VFloat 8.4) /\
    hex !! "transfer" = Some (VStr "3.25 g/m²").
Proof.
  destruct (gtt_sizes_are_hexagonal_volumes true gtt
              (gtt_spec "L" 8.4 "GTT" "3.25 g/m²" "13 cm³/m²"))
    as (label & f & t & H1 & H2 & H3 & H4).
  - right. right. left. reflexivity.
  - rewrite bool_decide_eq_true_2 in H4 by reflexivity.
    destruct H4 as (shown & hex & K1 & K2 & K3 & K4 & K5 & K6 & K7 & _).
    vm_compute in H1. injection H1 as <-.
    vm_compute in H2. injection H2 as <-.
    vm_compute in H3. injection H3 as <-.
    exists shown, hex. tauto.
Defined.

(** *** The transfer factor *)

Lemma tf_checked built r v tf :
  calculate_transfer_factor (init built) r v = Ok tf -> tf_bounded tf = true.
Proof.
  pose (P := fun p : (float * float) * list spec =>
    tf_bounded (transferAvg (fst p)) = true /\
    Forall (fun sp => forall t tv,
      sp !! "transfer" = Some (VStr t) ->
      float_of_string (leading_token t) = Ok tv ->
      tf_bounded (transferAvg (fst p) * (tv / 3.0))%float = true) (snd p)).
  assert (R : forall r, P (row (init built) r)).
  { apply row_cases; subst P; destruct built; cbn [fst snd];
      (split; [vm_compute; reflexivity|]);
      repeat (constructor;
              [intros t tv [= <-] Hp; vm_compute in Hp; injection Hp as <-;
               vm_compute; reflexivity|]);
      constructor. }
  subst P. cbn beta in R.
  pose proof (transfer_factor_cases built r v) as C. cbn zeta in C.
  destruct (R r) as [R1 R2]. cbn [row fst snd] in R1, R2.
  intros H. unfold get_volume_specs in C.
  destruct (find_spec v _) as [sp|] eqn:E.
  - destruct C as (t & tv & Ht & Hp & C). rewrite C in H. injection H as <-.
    apply find_spec_Some in E as [Hin _].
    rewrite List.Forall_forall in R2. exact (R2 sp Hin t tv Ht Hp).
  - rewrite C in H. injection H as <-. exact R1.
Qed.

(** X5: on every input the transfer factor lies between
    [0.25 * (1.8 / 3.0)] and [0.45 * (7.5 / 3.0)], that is between about
    15 and 112.5 percent; the bounds are the factors of the smallest
    hexagonal volume and of the largest ART / TIF volume. The factor, a
    share of ink, can thus exceed 1. *)
Theorem transfer_factor_bounds built r v :
  (exists tf,
     calculate_transfer_factor (init built) r v = Ok tf /\
     (0.25 * (1.8 / 3.0) <=? tf)%float = true /\
     (tf <=? 0.45 * (7.5 / 3.0))%float = true) /\
  calculate_transfer_factor (init built) hexagonal "7 cm³/m²"
  = Ok (0.25 * (1.8 / 3.0))%float /\
  calculate_transfer_factor (init built) art_tif "20 cm³/m²"
  = Ok (0.45 * (7.5 / 3.0))%float /\
  (1 <? 0.45 * (7.5 / 3.0))%float = true.
Proof.
  split.
  - destruct (calculate_transfer_factor_total built r v) as [tf H].
    exists tf. split; [exact H|].
    apply tf_checked in H. apply andb_true_iff in H. exact H.
  - destruct built; repeat split; vm_compute; reflexivity.
Qed.

(** *** The help texts *)

(** X6: [get_help_text] has a text for the six fields [substrate],
    [ink_type], [bcm], [rasterwals], [volume] and [general], and returns
    the empty string for every other field. *)
Theorem get_help_text_fields field :
  get_help_text field <> EmptyString
  <-> In field ["substrate"; "ink_type"; "bcm"; "rasterwals"; "volume"; "general"].
Proof.
  unfold get_help_text, get, help_texts. cbn [list_to_map foldr uncurry fst snd In].
  split.
  - intros H.
    repeat (match goal with
            | |- ?k = field \/ _ =>
                let E := fresh in
                destruct (decide (k = field)) as [E|E]; [left; exact E|right]
            end).
    rewrite !lookup_insert_ne, lookup_empty in H by assumption. apply H. reflexivity.
  - intros H.
    repeat (destruct H as [<-|H]; [vm_compute; discriminate|]). destruct H.
Qed.

(** *** The saved settings *)

Section SettingsSession.
Context {D : Type}.
Variable json_dump : list D -> string.
Variable json_load : string -> option (list D).

(** The assumption on the [json] module: a list that was written is
    read back as it was. *)
Hypothesis json_round_trip : forall l, json_load (json_dump l) = Some l.

Lemma load_save l w :
  settings_path ∉ denied w ->
  load_saved_settings json_load (save_settings json_dump l w) = l.
Proof.
  intros H. unfold save_settings, load_saved_settings.
  rewrite bool_decide_eq_false_2 by exact H. cbn [files denied].
  rewrite lookup_insert_eq, bool_decide_eq_false_2 by exact H.
  rewrite json_round_trip. reflexivity.
Qed.

(** X7: when [open] does not fail, [load_saved_settings] returns the
    whole list that [save_settings] wrote last, whatever the file held
    before; an earlier save leaves no trace, and the other files are
    not touched. *)
Theorem save_settings_round_trip (l1 l2 : list D) (w : world) :
  settings_path ∉ denied w ->
  load_saved_settings json_load (save_settings json_dump l2 w) = l2 /\
  save_settings json_dump l2 (save_settings json_dump l1 w)
  = save_settings json_dump l2 w /\
  forall path, path <> settings_path ->
    files (save_settings json_dump l2 w) !! path = files w !! path.
Proof.
  intros H. split; [apply load_save; exact H|]. split.
  - unfold save_settings. rewrite !(bool_decide_eq_false_2 _ H).
    cbn [files denied]. rewrite ?(bool_decide_eq_false_2 _ H). cbn [files denied].
    rewrite insert_insert_eq. reflexivity.
  - intros path N. unfold save_settings. rewrite bool_decide_eq_false_2 by exact H.
    cbn [files]. apply lookup_insert_ne. congruence.
Qed.

End SettingsSession.

Lemma save_settings_round_trip_witness :
  load_saved_settings load_units
    (save_settings dump_units [tt; tt]
       {| files := {[settings_path := "not json"]}; denied := ∅ |}) = [tt; tt].
Proof.
  apply (save_settings_round_trip dump_units load_units load_dump_units [tt] [tt; tt]).
  cbn. apply not_elem_of_empty.
Defined.

(** *** A bcm that is not finite *)

Lemma is_nan_spec f : is_nan f = true <-> Prim2SF f = S754_nan.
Proof.
  unfold is_nan. rewrite FloatAxioms.eqb_spec. unfold SFeqb. split.
  - intros H. destruct (Prim2SF f) eqn:E; try reflexivity;
      rewrite SFcompare_refl in H by discriminate; discriminate.
  - intros ->. reflexivity.
Qed.

(** A float that is not finite is NaN or an infinity. *)
Lemma not_finite_cases f :
  is_finite f = false ->
  Prim2SF f = S754_nan \/ exists s, Prim2SF f = S754_infinity s.
Proof.
  unfold is_finite, is_infinity, is_nan.
  rewrite !FloatAxioms.eqb_spec, abs_spec. unfold SFeqb.
  destruct (Prim2SF f) as [s|s| |s m e] eqn:E.
  - intros H. discriminate.
  - right. eexists. reflexivity.
  - left. reflexivity.
  - rewrite SFcompare_refl by discriminate. cbn. discriminate.
Qed.

(** The product of a float that is [+inf] or positive with an
    infinity or NaN. *)
Lemma SFmul_special x n d y :
  0 < n -> 0 < d -> sf_geb x n d = true ->
  (y = S754_nan -> SFmul prec emax x y = S754_nan /\ SFmul prec emax y x = S754_nan) /\
  (forall s, y = S754_infinity s ->
     SFmul prec emax x y = S754_infinity s /\ SFmul prec emax y x = S754_infinity s).
Proof.
  intros Hn Hd H. destruct x as [[|]|[|]| |[|] m e]; try discriminate; split;
    try (intros ->; split; reflexivity); intros [|] ->; split; reflexivity.
Qed.

(** The power before the limits, for a bcm that is not finite. *)
Lemma raw_not_finite built s i bcm r v tf :
  calculate_transfer_factor (init built) r v = Ok tf ->
  (Prim2SF bcm = S754_nan -> Prim2SF (power s i bcm tf) = S754_nan) /\
  (forall sg, Prim2SF bcm = S754_infinity sg ->
     Prim2SF (power s i bcm tf) = S754_infinity sg).
Proof.
  intros Htf. apply transfer_factor_ok in Htf. apply andb_true_iff in Htf as [Ht _].
  destruct (base_ok s i) as [HB _].
  set (B := Prim2SF (40 * substrateFactor s * inkFactor i)%float) in *.
  set (T := Prim2SF (1 + tf)%float) in *.
  unfold power. cbn zeta.
  rewrite (mul_spec _ (1 + tf)), (mul_spec _ (1 + bcm * 0.1)),
    (add_spec 1 (bcm * 0.1)), (mul_spec bcm 0.1).
  fold B T. unfold SF64mul, SF64add.
  split.
  - intros ->. cbn [SFmul].
    replace (SFadd prec emax (Prim2SF 1) S754_nan) with S754_nan
      by (vm_compute; reflexivity).
    destruct (SFmul_special B 36 1 S754_nan ltac:(lia) ltac:(lia) HB) as [H1 _].
    destruct (H1 eq_refl) as [-> _]. reflexivity.
  - intros sg ->.
    replace (SFadd prec emax (Prim2SF 1) (SFmul prec emax (S754_infinity sg) (Prim2SF 0.1)))
      with (S754_infinity sg) by (destruct sg; vm_compute; reflexivity).
    destruct (SFmul_special B 36 1 (S754_infinity sg) ltac:(lia) ltac:(lia) HB) as [_ H1].
    destruct (H1 sg eq_refl) as [-> _].
    destruct (SFmul_special T 9 8 (S754_infinity sg) ltac:(lia) ltac:(lia) Ht) as [_ H2].
    destruct (H2 sg eq_refl) as [_ ->]. reflexivity.
Qed.

(** X10: [bereken_uv_vermogen] returns a power for a bcm that is not
    finite, too: with NaN or minus infinity the final power is the [int]
    20 of the lower limit, and with plus infinity the [int] 100 of the
    upper limit. A NaN never reaches the final power. *)
Theorem final_power_not_finite built substraat inktsoort bcm rasterwals_type selected_volume :
  is_finite bcm = false ->
  exists res,
    bereken_uv_vermogen (init built) substraat inktsoort bcm
      rasterwals_type selected_volume = Ok res /\
    final_power res = NInt (if (0 <? bcm)%float then 100 else 20).
Proof.
  intros H.
  destruct (bereken_uv_vermogen_eq built substraat inktsoort bcm
              rasterwals_type selected_volume) as (tf & tv & Htf & _ & R).
  eexists. split; [exact R|]. cbn [final_power].
  destruct (raw_not_finite built substraat inktsoort bcm _ _ tf Htf) as [N I].
  rewrite ltb_spec. 
  unfold limit, Py.max, Py.min, gt, lt, num_cmp, float_cmp_int.
  destruct (not_finite_cases bcm H) as [E|[sg E]].
  - rewrite (N E), E. cbn [option_map CompOpp]. rewrite (N E). reflexivity.
  - rewrite (I sg E), E. destruct sg; cbn [option_map CompOpp];
      rewrite ?(I _ E); reflexivity.
Qed.

Lemma final_power_not_finite_witness :
  exists res,
    bereken_uv_vermogen (init true) "Folie" "UV-inkt" nan hachure "10 cm³/m²" = Ok res /\
    final_power res = NInt 20.
Proof.
  apply (final_power_not_finite true "Folie" "UV-inkt" nan hachure "10 cm³/m²").
  reflexivity.
Defined.

(** ** The recommended settings *)

(** *** The order of floats *)

Lemma SFcompare_rank x y :
  x <> S754_nan -> y <> S754_nan ->
  SFcompare x y = Some (rank_compare (sf_rank x) (sf_rank y)).
Proof.
  intros Hx Hy.
  destruct x as [[|]|[|]| |[|] m1 e1]; try congruence;
    destruct y as [[|]|[|]| |[|] m2 e2]; try congruence; try reflexivity;
    cbn [SFcompare sf_rank]; unfold rank_compare; cbn [fst snd Z.compare];
    rewrite ?Z.compare_opp;
    change (Pos.compare_cont Eq m1 m2) with (m1 ?= m2)%positive;
    rewrite (Z.compare_antisym e1 e2);
    destruct (e1 ?= e2); reflexivity.
Qed.

Lemma rank_compare_le a b :
  rank_le a b <-> rank_compare a b <> Gt.
Proof.
  unfold rank_le, rank_compare.
  destruct a as [[a1 a2] a3], b as [[b1 b2] b3]. cbn [fst snd].
  destruct (Z.compare_spec a1 b1); [|split; [discriminate|lia]|split; [lia|congruence]].
  destruct (Z.compare_spec a2 b2); [|split; [discriminate|lia]|split; [lia|congruence]].
  destruct (Z.compare_spec a3 b3); split; try discriminate; try congruence; lia.
Qed.

Lemma rank_compare_lt a b :
  rank_compare a b = Lt -> rank_le a b.
Proof. intros H. apply rank_compare_le. congruence. Qed.

Lemma rank_le_total a b : rank_compare a b <> Lt -> rank_le b a.
Proof.
  unfold rank_le, rank_compare.
  destruct a as [[a1 a2] a3], b as [[b1 b2] b3]. cbn [fst snd].
  destruct (Z.compare_spec a1 b1); [|congruence|lia].
  destruct (Z.compare_spec a2 b2); [|congruence|lia].
  destruct (Z.compare_spec a3 b3); [lia|congruence|lia].
Qed.

Lemma rank_le_trans a b c : rank_le a b -> rank_le b c -> rank_le a c.
Proof. unfold rank_le. lia. Qed.

Lemma not_nan f : is_nan f = false <-> Prim2SF f <> S754_nan.
Proof.
  rewrite <- is_nan_spec. destruct (is_nan f); split; congruence.
Qed.

Lemma leb_rank x y :
  is_nan x = false -> is_nan y = false ->
  (x <=? y)%float = true <-> rank_le (sf_rank (Prim2SF x)) (sf_rank (Prim2SF y)).
Proof.
  intros Hx Hy. apply not_nan in Hx, Hy.
  rewrite leb_spec, rank_compare_le. unfold SFleb.
  rewrite (SFcompare_rank _ _ Hx Hy).
  destruct (rank_compare _ _); split; congruence.
Qed.

Lemma ltb_rank x y :
  is_nan x = false -> is_nan y = false ->
  (x <? y)%float = (match rank_compare (sf_rank (Prim2SF x)) (sf_rank (Prim2SF y)) with
                    | Lt => true | _ => false end).
Proof.
  intros Hx Hy. apply not_nan in Hx, Hy.
  rewrite ltb_spec. unfold SFltb. rewrite (SFcompare_rank _ _ Hx Hy). reflexivity.
Qed.

(** On floats that are not NaN, [<=] is a total preorder. *)
Lemma leb_refl x : is_nan x = false -> (x <=? x)%float = true.
Proof.
  intros H. apply leb_rank; [exact H..|]. unfold rank_le. lia.
Qed.

Lemma leb_trans x y z :
  is_nan x = false -> is_nan y = false -> is_nan z = false ->
  (x <=? y)%float = true -> (y <=? z)%float = true -> (x <=? z)%float = true.
Proof.
  intros Hx Hy Hz. rewrite !leb_rank by assumption. apply rank_le_trans.
Qed.

Lemma ltb_leb x y :
  is_nan x = false -> is_nan y = false ->
  (x <? y)%float = true -> (x <=? y)%float = true.
Proof.
  intros Hx Hy. rewrite ltb_rank, leb_rank by assumption.
  destruct (rank_compare _ _) eqn:E; try discriminate. intros _.
  apply rank_compare_lt. exact E.
Qed.

Lemma not_ltb_leb x y :
  is_nan x = false -> is_nan y = false ->
  (x <? y)%float = false -> (y <=? x)%float = true.
Proof.
  intros Hx Hy. rewrite ltb_rank, leb_rank by assumption.
  destruct (rank_compare _ _) eqn:E; try discriminate; intros _;
    apply rank_le_total; congruence.
Qed.

(** *** The sort *)

Lemma insert_sorted_elem kx l p :
  p ∈ Pandas.insert_sorted kx l <-> p = kx \/ p ∈ l.
Proof.
  induction l as [|ky l IH]; cbn [Pandas.insert_sorted].
  - rewrite list_elem_of_singleton, elem_of_nil. tauto.
  - destruct (snd kx <? snd ky)%float.
    + rewrite elem_of_cons. reflexivity.
    + rewrite !elem_of_cons, IH. tauto.
Qed.

Lemma fold_insert_snoc ps x :
  fold_left (fun sorted kx => Pandas.insert_sorted kx sorted) (ps ++ [x]) []
  = Pandas.insert_sorted x
      (fold_left (fun sorted kx => Pandas.insert_sorted kx sorted) ps []).
Proof. rewrite fold_left_app. reflexivity. Qed.

Lemma fold_insert_elem ps p :
  p ∈ fold_left (fun sorted kx => Pandas.insert_sorted kx sorted) ps [] <-> p ∈ ps.
Proof.
  induction ps as [|x ps IH] using rev_ind; [reflexivity|].
  rewrite fold_insert_snoc, insert_sorted_elem, IH, elem_of_app, list_elem_of_singleton.
  tauto.
Qed.

(** The first pair of the sorted list has a value that is not above
    any other. *)
Lemma fold_insert_min ps :
  (forall p : nat * float, p ∈ ps -> is_nan (snd p) = false) ->
  match fold_left (fun sorted kx => Pandas.insert_sorted kx sorted) ps [] with
  | [] => ps = []
  | h :: _ => forall p, p ∈ ps -> (snd h <=? snd p)%float = true
  end.
Proof.
  induction ps as [|x ps IH] using rev_ind; intros N; [reflexivity|].
  assert (Nx : is_nan (snd x) = false).
  { apply N, elem_of_app. right. apply list_elem_of_singleton. reflexivity. }
  assert (N' : forall p, p ∈ ps -> is_nan (snd p) = false).
  { intros p Hp. apply N, elem_of_app. left. exact Hp. }
  specialize (IH N'). rewrite fold_insert_snoc.
  pose proof (fold_insert_elem ps) as M.
  destruct (fold_left _ ps []) as [|h t]; cbn [Pandas.insert_sorted].
  - subst ps. intros p Hp. apply list_elem_of_singleton in Hp as ->.
    apply leb_refl. exact Nx.
  - assert (Nh : is_nan (snd h) = false).
    { apply N', M. left. }
    destruct (snd x <? snd h)%float eqn:E; intros p Hp;
      apply elem_of_app in Hp as [Hp|Hp];
      try (apply list_elem_of_singleton in Hp as ->).
    + apply (leb_trans _ (snd h)); auto. apply ltb_leb; assumption.
    + apply leb_refl. exact Nx.
    + apply IH. exact Hp.
    + apply not_ltb_leb; assumption.
Qed.

(** The first position of the sorted order holds a smallest value. *)
Lemma stable_argsort_head xs :
  xs <> [] -> (forall d, d ∈ xs -> is_nan d = false) ->
  exists i d rest,
    Pandas.stable_argsort xs = i :: rest /\ xs !! i = Some d /\
    forall d', d' ∈ xs -> (d <=? d')%float = true.
Proof.
  intros Hne N. unfold Pandas.stable_argsort.
  set (ps := imap (fun i x => (i, x)) xs).
  assert (Np : forall p : nat * float, p ∈ ps -> is_nan (snd p) = false).
  { intros p Hp. apply elem_of_lookup_imap in Hp as (i & d & -> & Hd).
    apply N. eapply list_elem_of_lookup_2. exact Hd. }
  pose proof (fold_insert_min ps Np) as Hmin.
  pose proof (fold_insert_elem ps) as M.
  destruct (fold_left _ ps []) as [|[i d] t].
  - exfalso. apply Hne. apply (f_equal length) in Hmin. subst ps.
    rewrite length_imap in Hmin. destruct xs; [reflexivity|discriminate].
  - exists i, d, (List.map fst t). split; [reflexivity|]. split.
    + assert (Hin : (i, d) ∈ ps) by (apply M; left).
      apply elem_of_lookup_imap in Hin as (j & y & [= -> ->] & Hy). exact Hy.
    + intros d' Hd'. apply list_elem_of_lookup_1 in Hd' as [j Hj].
      apply (Hmin (j, d')). apply (elem_of_lookup_imap_2 (fun i x => (i, x))). exact Hj.
Qed.

Lemma existsb_is_nan xs :
  (forall d, d ∈ xs -> is_nan d = false) -> existsb is_nan xs = false.
Proof.
  induction xs as [|x xs IH]; intros N; [reflexivity|]. cbn [existsb].
  rewrite (N x) by left. apply IH. intros d Hd. apply N. right. exact Hd.
Qed.

Lemma iloc_lookup {A} (xs : list A) i x :
  xs !! i = Some x -> Pandas.iloc xs (Z.of_nat i) = Ok x.
Proof.
  intros H. pose proof (lookup_lt_Some _ _ _ H) as L. unfold Pandas.iloc.
  destruct (Z.ltb_spec (Z.of_nat i) 0); [lia|].
  destruct (Z.leb_spec 0 (Z.of_nat i)); [|lia].
  destruct (Z.ltb_spec (Z.of_nat i) (Z.of_nat (length xs))); [|lia].
  cbn [andb]. unfold index. rewrite Nat2Z.id, H. reflexivity.
Qed.

(** A difference with a NaN is a NaN. *)
Lemma sub_nan b bcm : is_nan (abs (b - bcm)) = false -> is_nan b = false.
Proof.
  rewrite !not_nan, abs_spec, sub_spec. intros H E. apply H. rewrite E. reflexivity.
Qed.

(** The rows a mask keeps start with the first row it holds for. *)
Lemma filter_find {A} (f : A -> bool) l :
  match List.find f l with
  | Some x => exists rest, List.filter f l = x :: rest
  | None => List.filter f l = []
  end.
Proof.
  induction l as [|a l IH]; [reflexivity|]. cbn [List.find List.filter].
  destruct (f a); [eexists; reflexivity|exact IH].
Qed.

Lemma eqb_refl x : is_nan x = false -> (x =? x)%float = true.
Proof. unfold is_nan. destruct (x =? x)%float; [reflexivity|discriminate]. Qed.

(** The row [get_recommended_settings] picks. *)
Lemma get_recommended_settings_near (self : t) (frame : anilox_frame) (bcm : float) :
  anilox_data self = Some frame -> frame <> [] ->
  (forall row, In row frame -> is_nan (abs (fst row - bcm)) = false) ->
  exists c b p,
    get_recommended_settings self bcm = Ok (Some p) /\
    In c (List.map fst frame) /\
    (forall row, In row frame ->
       (abs (c - bcm) <=? abs (fst row - bcm))%float = true) /\
    List.find (fun row => (fst row =? c)%float) frame = Some (b, p).
Proof.
  intros Hd Hne N. unfold get_recommended_settings. rewrite Hd.
  set (column := List.map fst frame).
  set (distance := List.map (fun b => abs (b - bcm)) column).
  assert (Nd : forall d, d ∈ distance -> is_nan d = false).
  { intros d Hd'. apply list_elem_of_In in Hd'. subst distance column.
    rewrite List.map_map in Hd'. apply in_map_iff in Hd' as (row & <- & Hrow).
    apply N. exact Hrow. }
  assert (Hne' : distance <> []).
  { subst distance column. destruct frame; [congruence|discriminate]. }
  destruct (stable_argsort_head distance Hne' Nd) as (i & d & rest & Hs & Hi & Hmin).
  unfold Pandas.argsort. rewrite (existsb_is_nan _ Nd), Hs.
  cbn [List.map take Pandas.iloc_list].
  assert (Hc : exists c, column !! i = Some c /\ d = abs (c - bcm)).
  { subst distance. change (List.map ?f column) with (f <$> column) in Hi.
    rewrite list_lookup_fmap in Hi. destruct (column !! i) as [c|]; [|discriminate].
    injection Hi as <-. eexists. split; reflexivity. }
  destruct Hc as (c & Hc & ->).
  rewrite (iloc_lookup _ _ _ Hc).
  change (take 0 (List.map Z.of_nat rest)) with (@nil Z).
  cbn [Pandas.iloc_list mbind result_bind mret result_ret].
  change (Pandas.iloc [c] 0) with (Ok c). cbn [mbind result_bind].
  assert (Hin : In c column).
  { apply list_elem_of_In. eapply list_elem_of_lookup_2. exact Hc. }
  assert (Ncd : is_nan (abs (c - bcm)) = false).
  { apply Nd. eapply list_elem_of_lookup_2. exact Hi. }
  pose proof (sub_nan _ _ Ncd) as Nc.
  pose proof (filter_find (fun row : float * Z => (fst row =? c)%float) frame) as F.
  destruct (List.find _ frame) as [[b p]|] eqn:E.
  - destruct F as [rest' F]. rewrite F. cbn [List.map snd].
    exists c, b, p. split; [reflexivity|]. split; [exact Hin|]. split; [|exact E].
    intros row Hrow. apply Hmin. apply list_elem_of_In. subst distance column.
    rewrite List.map_map. apply (in_map (fun x => abs (fst x - bcm)) _ _ Hrow).
  - exfalso. subst column. apply in_map_iff in Hin as (row & <- & Hrow).
    eapply List.find_none in E; [|exact Hrow]. cbn beta in E.
    rewrite eqb_refl in E by exact Nc. discriminate.
Qed.


(** X11: the recommended power is that of a nearest row. For anilox
    data with at least one row, and when no distance [|b - bcm|] is NaN,
    [get_recommended_settings] returns a power: there is a bcm [c] of
    the data whose distance to [bcm] is not above that of any row, and
    the power returned is that of the first row whose bcm equals [c].
    Distances are the computed floats, so that rows whose distances
    round to the same float count as equally near. *)
Theorem get_recommended_settings_nearest (self : t) (frame : anilox_frame) (bcm : float) :
  anilox_data self = Some frame -> frame <> [] ->
  (forall row, In row frame -> is_nan (abs (fst row - bcm)) = false) ->
  exists c b p,
    get_recommended_settings self bcm = Ok (Some p) /\
    In c (List.map fst frame) /\
    (forall row, In row frame ->
       (abs (c - bcm) <=? abs (fst row - bcm))%float = true) /\
    List.find (fun row => (fst row =? c)%float) frame = Some (b, p).
Proof. apply get_recommended_settings_near. Qed.

Lemma get_recommended_settings_nearest_witness :
  exists c b p,
    get_recommended_settings (init true) 2.2 = Ok (Some p) /\
    In c [1.5; 2.0; 2.5; 3.0]%float /\
    (forall row, In row [(1.5%float, 40); (2.0%float, 50); (2.5%float, 60); (3.0%float, 70)] ->
       (abs (c - 2.2) <=? abs (fst row - 2.2))%float = true) /\
    List.find (fun row => (fst row =? c)%float)
      [(1.5%float, 40); (2.0%float, 50); (2.5%float, 60); (3.0%float, 70)] = Some (b, p).
Proof.
  apply (get_recommended_settings_nearest (init true)
           [(1.5%float, 40); (2.0%float, 50); (2.5%float, 60); (3.0%float, 70)] 2.2).
  - reflexivity.
  - discriminate.
  - intros row H.
    repeat (destruct H as [<-|H]; [vm_compute; reflexivity|]). destruct H.
Defined.

(** *** The rows of the placeholder data *)

(** Rounding gives a zero, a finite float or an infinity. *)
Lemma binary_round_aux_not_nan sx M E :
  0 <= M -> binary_round_aux prec emax sx M E loc_Exact <> S754_nan.
Proof.
  intros H. unfold binary_round_aux.
  pose proof (shr_fexp_nonneg M E H) as H1.
  destruct (shr_fexp prec emax M E loc_Exact) as [mrs' e'] eqn:E1. cbn [fst] in H1.
  pose proof (round_nearest_even_bounds (shr_m mrs') (loc_of_shr_record mrs')) as B.
  set (m1 := round_nearest_even (shr_m mrs') (loc_of_shr_record mrs')) in *.
  pose proof (shr_fexp_nonneg m1 e' ltac:(lia)) as H2.
  destruct (shr_fexp prec emax m1 e' loc_Exact) as [mrs'' e''] eqn:E2. cbn [fst] in H2.
  destruct (shr_m mrs'') as [|m|m]; [discriminate| |lia].
  destruct (e'' <=? emax - prec); discriminate.
Qed.

Lemma binary_normalize_not_nan m e : binary_normalize prec emax m e false <> S754_nan.
Proof.
  unfold binary_normalize, binary_round.
  destruct m as [|p|p]; [discriminate| |];
    destruct (shl_align p e _) as [mz ez];
    apply binary_round_aux_not_nan; lia.
Qed.

(** The difference of a finite float and a float that is not NaN is
    not NaN. *)
Lemma sub_finite_not_nan b bcm :
  is_finite b = true -> is_nan bcm = false -> is_nan (abs (b - bcm)) = false.
Proof.
  intros Hb Hn. apply not_nan in Hn. apply not_nan.
  rewrite abs_spec, sub_spec. unfold SF64sub.
  assert (F : match Prim2SF b with S754_zero _ | S754_finite _ _ _ => True | _ => False end).
  { revert Hb. unfold is_finite, is_infinity, is_nan.
    rewrite !FloatAxioms.eqb_spec, abs_spec. unfold SFeqb.
    destruct (Prim2SF b) as [s|[|]| |s m e]; try exact (fun _ => I);
      vm_compute; discriminate. }
  destruct (Prim2SF b) as [s|s| |s m e]; try contradiction;
    destruct (Prim2SF bcm) as [s'|s'| |s' m' e']; try congruence;
    cbn [SFsub]; try (destruct s, s'; discriminate); try discriminate.
  match goal with
  | |- SFabs ?x <> _ =>
      pose proof (binary_normalize_not_nan _ _ : x <> S754_nan) as H;
      destruct x; cbn [SFabs]; congruence
  end.
Qed.

(** X12: with the data that [load_anilox_data] builds, and for every
    bcm that is not NaN, [get_recommended_settings] returns the power of
    a row of the data whose distance to [bcm], as computed, is not above
    that of any row: one of 40, 50, 60 and 70. When the data could not
    be built it returns [None]. *)
Theorem get_recommended_settings_table (built : bool) (bcm : float) :
  is_nan bcm = false ->
  let data := [(1.5%float, 40); (2.0%float, 50); (2.5%float, 60); (3.0%float, 70)] in
  if built then
    exists b p,
      get_recommended_settings (init built) bcm = Ok (Some p) /\
      In (b, p) data /\
      forall row, In row data ->
        (abs (b - bcm) <=? abs (fst row - bcm))%float = true
  else get_recommended_settings (init built) bcm = Ok None.
Proof.
  intros Hn. cbn zeta. destruct built; [|reflexivity].
  destruct (get_recommended_settings_near (init true)
              [(1.5%float, 40); (2.0%float, 50); (2.5%float, 60); (3.0%float, 70)] bcm)
    as (c & b & p & H1 & H2 & H3 & H4).
  - reflexivity.
  - discriminate.
  - intros row H.
    repeat (destruct H as [<-|H]; [apply sub_finite_not_nan; [reflexivity|exact Hn]|]).
    destruct H.
  - exists b, p. split; [exact H1|].
    cbn [List.map fst In] in H2.
    repeat (destruct H2 as [<-|H2];
            [vm_compute in H4; injection H4 as <- <-; split; [cbn; tauto|exact H3]|]).
    destruct H2.
Qed.

Lemma get_recommended_settings_table_witness :
  exists b p,
    get_recommended_settings (init true) infinity = Ok (Some p) /\
    In (b, p) [(1.5%float, 40); (2.0%float, 50); (2.5%float, 60); (3.0%float, 70)] /\
    forall row, In row [(1.5%float, 40); (2.0%float, 50); (2.5%float, 60); (3.0%float, 70)] ->
      (abs (b - infinity) <=? abs (fst row - infinity))%float = true.
Proof.
  apply (get_recommended_settings_table true infinity). reflexivity.
Defined.

(** ** The power along the volumes of a roller *)

Lemma grows_checked built r :
  grows (fst (row (init built) r)) (snd (row (init built) r)) = true.
Proof.
  apply (row_cases built (fun p => grows (fst p) (snd p) = true));
    destruct built; vm_compute; reflexivity.
Qed.

(** X13: for a roller type, a substrate and an ink, the final power of
    the form does not decrease with the bcm of the volume chosen: when
    the calculation is made for two volumes and the bcm of the first is
    not above that of the second, neither is its final power. *)
Theorem power_grows_with_bcm built substraat inktsoort rasterwals_type v1 v2 f1 f2 res1 res2 :
  let self := init built in
  get_bcm_from_volume self rasterwals_type v1 = Ok (VFloat f1) ->
  get_bcm_from_volume self rasterwals_type v2 = Ok (VFloat f2) ->
  (f1 <=? f2)%float = true ->
  App.calculate self substraat inktsoort rasterwals_type v1 = Ok (App.Calculated res1) ->
  App.calculate self substraat inktsoort rasterwals_type v2 = Ok (App.Calculated res2) ->
  le (final_power res1) (final_power res2) = true.
Proof.
  cbn zeta. intros B1 B2 L C1 C2.
  pose proof (calculate_cases built substraat inktsoort rasterwals_type v1) as K1.
  pose proof (calculate_cases built substraat inktsoort rasterwals_type v2) as K2.
  cbn zeta in K1, K2.
  destruct (find_spec v1 _) as [sp1|] eqn:E1; [|destruct K1 as [_ K1]; congruence].
  destruct (find_spec v2 _) as [sp2|] eqn:E2; [|destruct K2 as [_ K2]; congruence].
  destruct K1 as (g1 & r1 & G1 & _ & _ & R1 & _ & _ & S1 & P1).
  destruct K2 as (g2 & r2 & G2 & _ & _ & R2 & _ & _ & S2 & P2).
  rewrite G1 in B1. injection B1 as ->. rewrite G2 in B2. injection B2 as ->.
  rewrite R1 in C1. injection C1 as ->. rewrite R2 in C2. injection C2 as ->.
  apply find_spec_Some in E1 as [In1 _]. apply find_spec_Some in E2 as [In2 _].
  pose proof (grows_checked built rasterwals_type) as G. unfold grows in G.
  cbn [row fst snd] in G. unfold get_volume_specs in In1, In2.
  rewrite forallb_forall in G. specialize (G sp1 In1).
  rewrite forallb_forall in G. specialize (G sp2 In2).
  rewrite S1, S2 in G. unfold VFloat in G. rewrite L in G. cbn [negb orb] in G.
  rewrite forallb_forall in G. specialize (G _ (substrateFactor_in substraat)).
  rewrite forallb_forall in G. specialize (G _ (inkFactor_in inktsoort)).
  rewrite P1, P2 in G. exact G.
Qed.

Lemma power_grows_with_bcm_witness :
  exists res1 res2,
    App.calculate (init true) "Folie" "UV-inkt" hexagonal "7 cm³/m²"
    = Ok (App.Calculated res1) /\
    App.calculate (init true) "Folie" "UV-inkt" hexagonal "13 cm³/m²"
    = Ok (App.Calculated res2) /\
    le (final_power res1) (final_power res2) = true.
Proof.
  do 2 eexists.
  split; [vm_compute; reflexivity|].
  split; [vm_compute; reflexivity|].
  apply (power_grows_with_bcm true "Folie" "UV-inkt" hexagonal
           "7 cm³/m²" "13 cm³/m²" 4.5 8.4);
    vm_compute; reflexivity.
Defined.

(** ** The lookups on arbitrary tables *)

Lemma eq_VStr l v : if Py.eq l (VStr v) then l = VStr v else l <> VStr v.
Proof.
  destruct l as [s|n]; cbn [Py.eq]; [|discriminate].
  case_bool_decide; congruence.
Qed.

Lemma volume_is_other v a :
  (exists l, a !! "volume" = Some l /\ l <> VStr v) -> volume_is v a = Ok false.
Proof.
  intros (l & H & N). unfold volume_is, getitem. rewrite H. cbn.
  pose proof (eq_VStr l v) as E. destruct (Py.eq l (VStr v)); [contradiction|reflexivity].
Qed.

(** The loops pass over the specifications with another volume. *)
Lemma for_return_skip {B} v (body : spec -> result B) d pre rest :
  (forall a, In a pre -> exists l, a !! "volume" = Some l /\ l <> VStr v) ->
  for_return (volume_is v) body d (pre ++ rest) = for_return (volume_is v) body d rest.
Proof.
  induction pre as [|a pre IH]; intros H; [reflexivity|].
  cbn [app for_return]. rewrite (volume_is_other v a) by (apply H; left; reflexivity).
  cbn. apply IH. intros b Hb. apply H. right. exact Hb.
Qed.

Lemma next_or_none_skip v pre rest :
  (forall a, In a pre -> exists l, a !! "volume" = Some l /\ l <> VStr v) ->
  next_or_none (volume_is v) (pre ++ rest) = next_or_none (volume_is v) rest.
Proof.
  induction pre as [|a pre IH]; intros H; [reflexivity|].
  cbn [app next_or_none]. rewrite (volume_is_other v a) by (apply H; left; reflexivity).
  cbn. apply IH. intros b Hb. apply H. right. exact Hb.
Qed.

(** X14: on any tables the lookups stop at the first specification
    whose volume is the one asked for, whatever follows it: they return
    its bcm and its transfer, with a [KeyError] when it has none. A
    specification without volume that is met before raises [KeyError]
    in the two lookups and in [calculate_transfer_factor]. *)
Theorem lookup_first_match (self : t) r v pre sp post :
  get_volume_specs self r = (pre ++ sp :: post)%list ->
  (forall a, In a pre -> exists l, a !! "volume" = Some l /\ l <> VStr v) ->
  (sp !! "volume" = Some (VStr v) ->
   get_bcm_from_volume self r v = getitem sp "bcm" /\
   get_transfer_from_volume self r v = getitem sp "transfer" /\
   App.spec_info self r v = Ok (Some sp)) /\
  (sp !! "volume" = None ->
   get_bcm_from_volume self r v = Raise KeyError /\
   get_transfer_from_volume self r v = Raise KeyError /\
   calculate_transfer_factor self r v = Raise KeyError).
Proof.
  intros Hs Hpre.
  unfold get_bcm_from_volume, get_transfer_from_volume, calculate_transfer_factor,
    App.spec_info.
  unfold get_volume_specs in *. rewrite Hs.
  rewrite !(for_return_skip v _ _ pre _ Hpre), (next_or_none_skip v pre _ Hpre).
  cbn [for_return next_or_none]. unfold volume_is, getitem. split; intros ->.
  - cbn. rewrite bool_decide_eq_true_2 by reflexivity. repeat split; reflexivity.
  - repeat split; reflexivity.
Qed.

Lemma lookup_first_match_witness :
  let self := {| anilox_data := None; transfer_ranges := ∅;
                 volume_specs := {["r" := [ {["volume" := VStr "a"]}; ∅ ]]} |} in
  get_bcm_from_volume self "r" "b" = Raise KeyError /\
  get_transfer_from_volume self "r" "b" = Raise KeyError /\
  calculate_transfer_factor self "r" "b" = Raise KeyError.
Proof.
  cbn zeta.
  apply (lookup_first_match _ "r" "b" [ {["volume" := VStr "a"]} ] ∅ []).
  - reflexivity.
  - intros a [<-|[]]. exists (VStr "a"). split; [reflexivity|discriminate].
  - reflexivity.
Defined.

Lemma next_or_none_found v specs sp :
  next_or_none (volume_is v) specs = Ok (Some sp) ->
  In sp specs /\ sp !! "volume" = Some (VStr v).
Proof.
  induction specs as [|a specs IH]; [discriminate|].
  cbn [next_or_none]. destruct (a !! "volume") as [l|] eqn:E.
  - assert (volume_is v a = Ok (Py.eq l (VStr v))) as ->
      by (unfold volume_is, getitem; rewrite E; reflexivity).
    cbn [mbind result_bind].
    pose proof (eq_VStr l v) as D. destruct (Py.eq l (VStr v)).
    + intros [= <-]. split; [left; reflexivity|]. rewrite E, D. reflexivity.
    + intros H. destruct (IH H) as [H1 H2]. split; [right; exact H1|exact H2].
  - assert (volume_is v a = Raise KeyError) as ->
      by (unfold volume_is, getitem; rewrite E; reflexivity).
    discriminate.
Qed.

(** X15: a specification that was found is never an empty dictionary,
    on any tables: it holds the volume asked for. The tests
    [if selected_spec] of [calculate_transfer_factor] and [if spec_info]
    of the form fail only when nothing was found, and the info box is
    shown for every specification found. *)
Theorem found_spec_is_truthy (self : t) r v sp :
  App.spec_info self r v = Ok (Some sp) ->
  truthy sp = true /\ sp !! "volume" = Some (VStr v) /\
  In sp (get_volume_specs self r).
Proof.
  unfold App.spec_info. intros H. apply next_or_none_found in H as [H1 H2].
  split; [|split; assumption].
  unfold truthy. rewrite bool_decide_eq_false_2; [reflexivity|].
  intros E. apply map_to_list_empty_iff in E. rewrite E, lookup_empty in H2.
  discriminate.
Qed.

Lemma found_spec_is_truthy_witness :
  truthy (gtt_spec "M" 6.4 "GTT" "2.5 g/m²" "10 cm³/m²") = true /\
  gtt_spec "M" 6.4 "GTT" "2.5 g/m²" "10 cm³/m²" !! "volume" = Some (VStr "M") /\
  In (gtt_spec "M" 6.4 "GTT" "2.5 g/m²" "10 cm³/m²") (get_volume_specs (init true) gtt).
Proof.
  apply (found_spec_is_truthy (init true) gtt "M"). reflexivity.
Defined.

(** ** The settings file *)

Lemma string_app_cons (x : ascii) (a b : string) : String x a ++ b = String x (a ++ b).
Proof. reflexivity. Qed.



Lemma string_app_nil (a : string) : a ++ EmptyString = a.
Proof.
  induction a as [|x a IH]; [reflexivity|]. rewrite string_app_cons, IH. reflexivity.
Qed.










